(** * The recipe serializer of foodgram (backend/foodgram/api/serializers.py)

    A shallow embedding of [RecipeSerializer]: the request conversion
    ([to_internal_value]), the validation ([validate] and the
    [UniqueTogetherValidator] of [Meta]), the two write paths ([create],
    [update]) over the tables they touch, and the two computed fields
    ([get_is_favorited], [get_is_in_shopping_cart]). *)

From Stdlib Require Import List String Ascii Arith Bool Lia PeanoNat.
From Stdlib Require Import Strings.Byte.
Import ListNotations.

Open Scope list_scope.
Open Scope string_scope.
Open Scope nat_scope.

(** ** Exceptions and results *)

(** The exceptions the modelled code can raise.  [ValidationError] is the
    only one the framework turns into a response for the user. *)
Inductive Exception : Type :=
| ValidationError (detail : string)
| ValueError
| AttributeError
| BinasciiError
| MultipleObjectsReturned.

Inductive Result (A : Type) : Type :=
| Ok (a : A)
| Raise (e : Exception).

Arguments Ok {A} a.
Arguments Raise {A} e.

Definition is_validation_error {A : Type} (r : Result A) : bool :=
  match r with
  | Raise (ValidationError _) => true
  | _ => false
  end.

(** ** Python strings *)

Module Str.

(** [s[n:]] *)
Fixpoint drop (n : nat) (s : string) : string :=
  match n, s with
  | 0, _ => s
  | S _, EmptyString => EmptyString
  | S n', String _ s' => drop n' s'
  end.

(** [s.partition(sep)] for a separator that occurs: the text before the
    leftmost occurrence and the text after it; [None] when [sep] does not
    occur in [s]. *)
Fixpoint partition (sep s : string) {struct s} : option (string * string) :=
  if prefix sep s then Some (EmptyString, drop (String.length sep) s)
  else match s with
       | EmptyString => None
       | String c s' =>
           match partition sep s' with
           | Some (a, b) => Some (String c a, b)
           | None => None
           end
       end.

(** [s.split(sep)]: the pieces between the occurrences of [sep], found from
    the left and not overlapping.  Each round consumes a leftmost occurrence;
    [fuel] bounds the rounds. *)
Fixpoint split_fuel (fuel : nat) (sep s : string) : list string :=
  match fuel with
  | 0 => [s]
  | S fuel' =>
      match partition sep s with
      | None => [s]
      | Some (a, b) => a :: split_fuel fuel' sep b
      end
  end.

(** A non-empty separator is consumed at most [length s] times. *)
Definition split (sep s : string) : list string :=
  split_fuel (S (String.length s)) sep s.

(** [sep in s] *)
Definition contains (sep s : string) : Prop :=
  exists a b : string, s = a ++ sep ++ b.

(** The positions at which [sep] occurs in [s], overlapping ones included. *)
Fixpoint occurrences (sep s : string) : list nat :=
  ((if prefix sep s then [0] else []) ++
   match s with
   | EmptyString => []
   | String _ s' => map S (occurrences sep s')
   end)%list.

End Str.

(** ** Request data and [to_internal_value] *)

(** [django.core.files.base.ContentFile] *)
Record ContentFile : Type := mkContentFile {
  file_content : list byte;
  file_name : string
}.

(** The value under ['image']: the string the client sent, or the file
    [to_internal_value] puts in its place. *)
Inductive ImageValue : Type :=
| ImageStr (s : string)
| ImageFile (f : ContentFile).

(** An ingredient entry of the payload: an ingredient id and an amount. *)
Record IngredientAmount : Type := mkIngredientAmount {
  ingredient : nat;
  amount : nat
}.

(** The request's [data] dict.  ['image'] may be absent. *)
Record RequestData : Type := mkRequestData {
  data_image : option ImageValue;
  data_name : string;
  data_text : string;
  data_cooking_time : nat;
  data_tags : list nat;
  data_ingredients : list IngredientAmount
}.

(** [data['image'] = img_file] *)
Definition set_image (data : RequestData) (v : ImageValue) : RequestData :=
  {| data_image := Some v;
     data_name := data_name data;
     data_text := data_text data;
     data_cooking_time := data_cooking_time data;
     data_tags := data_tags data;
     data_ingredients := data_ingredients data |}.

(** The validated attributes the field-level conversion returns: tags and
    ingredients are resolved to model instances, stood for by their ids. *)
Record Attrs : Type := mkAttrs {
  attrs_tags : list nat;
  attrs_ingredients : list IngredientAmount;
  attrs_name : string;
  attrs_image : ContentFile;
  attrs_text : string;
  attrs_cooking_time : nat
}.

Definition base64_marker : string := ";base64,".

Section ToInternalValue.

(** [base64.b64decode] (standard library of Python): the decoded bytes, or
    [binascii.Error]. *)
Variable b64decode : string -> Result (list byte).

(** [ModelSerializer.to_internal_value] (framework): the field-level
    conversion of the request data. *)
Variable super_to_internal_value : RequestData -> Result Attrs.

(** [RecipeSerializer.to_internal_value]; [uuid] is what [str(uuid4())]
    returns for this call. *)
Definition to_internal_value (uuid : string) (data : RequestData) : Result Attrs :=
  match data_image data with
  | None => super_to_internal_value data
  | Some (ImageFile _) => Raise AttributeError
  | Some (ImageStr image) =>
      match Str.split base64_marker image with
      | [format; imgstr] =>
          let ext := last (Str.split "/" format) EmptyString in
          let file_name := uuid in
          match b64decode imgstr with
          | Raise e => Raise e
          | Ok content =>
              let img_file := mkContentFile content (file_name ++ "." ++ ext) in
              super_to_internal_value (set_image data (ImageFile img_file))
          end
      | _ => Raise ValueError
      end
  end.

End ToInternalValue.

(** ** Validation *)

(** Modelled from the spec: the test [check_for_dublicates] (api/utils.py,
    not among the sources) makes; the spec speaks of a list that contains
    duplicates. *)
Fixpoint has_dublicates (items_list : list nat) : bool :=
  match items_list with
  | [] => false
  | item :: rest => existsb (Nat.eqb item) rest || has_dublicates rest
  end.

(** Modelled from the spec: [check_for_dublicates] is defined in api/utils.py,
    which is not among the sources.  The spec: validation rejects a request
    whose ingredient id list or tag id list contains duplicates, producing a
    user-facing error keyed to which list failed. *)
Definition check_for_dublicates (items_list : list nat) (error_message : string)
  : Result unit :=
  if has_dublicates items_list then Raise (ValidationError error_message)
  else Ok tt.

Definition ingredients_error : string := "Ингредиенты дублируются".
Definition tags_error : string := "Тэги дублируются".

(** [RecipeSerializer.validate] *)
Definition validate (data : Attrs) : Result Attrs :=
  let ingredients := map ingredient (attrs_ingredients data) in
  let tags := attrs_tags data in
  match check_for_dublicates ingredients ingredients_error with
  | Raise e => Raise e
  | Ok _ =>
      match check_for_dublicates tags tags_error with
      | Raise e => Raise e
      | Ok _ => Ok data
      end
  end.

(** ** Tables *)

Record Recipe : Type := mkRecipe {
  recipe_id : nat;
  recipe_name : string;
  recipe_author : nat;
  recipe_image : ContentFile;
  recipe_text : string;
  recipe_cooking_time : nat
}.

Record IngredientInRecipe : Type := mkIngredientInRecipe {
  iir_id : nat;
  iir_ingredient : nat;
  iir_amount : nat
}.

(** A [Favorite] and a [ShoppingCart] row link a user to a recipe. *)
Record Favorite : Type := mkFavorite {
  favorite_id : nat;
  favorite_user : nat;
  favorite_recipe : nat
}.

Record ShoppingCart : Type := mkShoppingCart {
  shoppingcart_id : nat;
  shoppingcart_user : nat;
  shoppingcart_recipe : nat
}.

(** The two many-to-many fields of [Recipe]: [ingredients] relates a recipe
    to [IngredientInRecipe] rows, [tags] to [Tag] rows. *)
Inductive Relation : Type := Ingredients | Tags.

Definition Relation_eqb (r1 r2 : Relation) : bool :=
  match r1, r2 with
  | Ingredients, Ingredients | Tags, Tags => true
  | _, _ => false
  end.

(** Row-level writes, in the order they are made. *)
Inductive Write : Type :=
| InsertRecipe (r : Recipe)
| UpdateRecipe (r : Recipe)
| InsertIngredientInRecipe (row : IngredientInRecipe)
| InsertLink (rel : Relation) (recipe target : nat)
| DeleteLink (rel : Relation) (recipe target : nat).

Record Database : Type := mkDatabase {
  recipe_rows : list Recipe;
  ingredientinrecipe_rows : list IngredientInRecipe;
  through_rows : Relation -> list (nat * nat);
  favorite_rows : list Favorite;
  shoppingcart_rows : list ShoppingCart;
  journal : list Write
}.

Definition empty_database : Database :=
  mkDatabase [] [] (fun _ => []) [] [] [].

Definition set_recipe_rows (rows : list Recipe) (db : Database) : Database :=
  mkDatabase rows (ingredientinrecipe_rows db) (through_rows db)
             (favorite_rows db) (shoppingcart_rows db) (journal db).

Definition set_ingredientinrecipe_rows (rows : list IngredientInRecipe)
  (db : Database) : Database :=
  mkDatabase (recipe_rows db) rows (through_rows db)
             (favorite_rows db) (shoppingcart_rows db) (journal db).

Definition set_through_rows (rel : Relation) (links : list (nat * nat))
  (db : Database) : Database :=
  mkDatabase (recipe_rows db) (ingredientinrecipe_rows db)
             (fun r => if Relation_eqb r rel then links else through_rows db r)
             (favorite_rows db) (shoppingcart_rows db) (journal db).

Definition record (ws : list Write) (db : Database) : Database :=
  mkDatabase (recipe_rows db) (ingredientinrecipe_rows db) (through_rows db)
             (favorite_rows db) (shoppingcart_rows db) (journal db ++ ws)%list.

(** ** Database code: state passing with exceptions *)

Definition ORM (A : Type) : Type := Database -> Result A * Database.

Definition ret {A : Type} (a : A) : ORM A := fun db => (Ok a, db).

Definition raise {A : Type} (e : Exception) : ORM A := fun db => (Raise e, db).

Definition bind {A B : Type} (m : ORM A) (k : A -> ORM B) : ORM B :=
  fun db =>
    match m db with
    | (Ok a, db') => k a db'
    | (Raise e, db') => (Raise e, db')
    end.

Definition lift {A : Type} (r : Result A) : ORM A := fun db => (r, db).

Notation "x <- m ;; k" := (bind m (fun x => k))
  (at level 61, m at next level, right associativity).
Notation "m ;; k" := (bind m (fun _ => k))
  (at level 61, right associativity).

(** [for x in xs: body(x)] *)
Fixpoint for_each {A : Type} (xs : list A) (body : A -> ORM unit) : ORM unit :=
  match xs with
  | [] => ret tt
  | x :: xs' => body x ;; for_each xs' body
  end.

(** The next value of an auto-incremented primary key. *)
Definition next_id (ids : list nat) : nat := S (list_max ids).

Definition mem (i : nat) (l : list nat) : bool := existsb (Nat.eqb i) l.

(** The row holds this ingredient and this amount. *)
Definition holds (kw : IngredientAmount) (row : IngredientInRecipe) : bool :=
  (iir_ingredient row =? ingredient kw) && (iir_amount row =? amount kw).

Definition pair_of (row : IngredientInRecipe) : IngredientAmount :=
  mkIngredientAmount (iir_ingredient row) (iir_amount row).

(** *** Managers *)

Record RecipeFields : Type := mkRecipeFields {
  fields_name : string;
  fields_author : nat;
  fields_image : ContentFile;
  fields_text : string;
  fields_cooking_time : nat
}.

(** [Recipe.objects.create] with [fields] as keyword arguments *)
Definition Recipe_objects_create (fields : RecipeFields) : ORM Recipe :=
  fun db =>
    let r := mkRecipe (next_id (map recipe_id (recipe_rows db)))
                      (fields_name fields) (fields_author fields)
                      (fields_image fields) (fields_text fields)
                      (fields_cooking_time fields) in
    (Ok r, record [InsertRecipe r] (set_recipe_rows (recipe_rows db ++ [r])%list db)).

(** [instance.save()] after the attributes were set from [fields]: the row
    with the instance's key is updated; when there is none, the row is
    inserted. *)
Definition Recipe_save (instance : Recipe) (fields : RecipeFields) : ORM Recipe :=
  fun db =>
    let r := mkRecipe (recipe_id instance)
                      (fields_name fields) (fields_author fields)
                      (fields_image fields) (fields_text fields)
                      (fields_cooking_time fields) in
    let stored := existsb (fun old => recipe_id old =? recipe_id instance)
                          (recipe_rows db) in
    (Ok r, record [if stored then UpdateRecipe r else InsertRecipe r]
             (set_recipe_rows
                (if stored
                 then map (fun old => if recipe_id old =? recipe_id instance
                                      then r else old)
                          (recipe_rows db)
                 else (recipe_rows db ++ [r])%list) db)).

Definition insert_ingredientinrecipe (kw : IngredientAmount) : ORM IngredientInRecipe :=
  fun db =>
    let row := mkIngredientInRecipe
                 (next_id (map iir_id (ingredientinrecipe_rows db)))
                 (ingredient kw) (amount kw) in
    (Ok row, record [InsertIngredientInRecipe row]
               (set_ingredientinrecipe_rows (ingredientinrecipe_rows db ++ [row])%list db)).

Section IngredientInRecipeManager.

(** The declaration of [IngredientInRecipe] (recipies/models.py) is not
    among the sources: whether it declares (ingredient, amount) unique
    together is a parameter.  The spec's upsert of a join row and the
    [ignore_conflicts=True] of [create] presuppose that it does. *)
Variable unique_together : bool.

(** One row of [bulk_create(..., ignore_conflicts=True)]: a row that would
    break a uniqueness constraint is left out silently. *)
Definition insert_ignore_conflicts (obj : IngredientAmount) : ORM unit :=
  fun db =>
    if unique_together && existsb (holds obj) (ingredientinrecipe_rows db)
    then (Ok tt, db)
    else (insert_ingredientinrecipe obj ;; ret tt) db.

(** [IngredientInRecipe.objects.bulk_create(objs, ignore_conflicts=True)] *)
Definition bulk_create (objs : list IngredientAmount) : ORM unit :=
  for_each objs insert_ignore_conflicts.

End IngredientInRecipeManager.

(** [IngredientInRecipe.objects.filter(ingredient__in=..., amount__in=...)] *)
Definition IngredientInRecipe_objects_filter (ingredient__in amount__in : list nat)
  : ORM (list IngredientInRecipe) :=
  fun db =>
    (Ok (filter (fun row => mem (iir_ingredient row) ingredient__in
                            && mem (iir_amount row) amount__in)
                (ingredientinrecipe_rows db)), db).

(** [IngredientInRecipe.objects.get_or_create] with [kw] as keyword arguments *)
Definition get_or_create (kw : IngredientAmount) : ORM (IngredientInRecipe * bool) :=
  fun db =>
    match filter (holds kw) (ingredientinrecipe_rows db) with
    | [] => (row <- insert_ingredientinrecipe kw ;; ret (row, true)) db
    | [row] => (Ok (row, false), db)
    | _ :: _ :: _ => raise MultipleObjectsReturned db
    end.

(** *** Related managers ([instance.ingredients], [instance.tags]) *)

(** The ids related to [recipe] through [rel]. *)
Definition related (rel : Relation) (recipe : nat) (db : Database) : list nat :=
  map snd (filter (fun l => fst l =? recipe) (through_rows db rel)).

(** [.add(obj)]: a link that exists is not inserted again. *)
Definition m2m_add (rel : Relation) (recipe target : nat) : ORM unit :=
  fun db =>
    if mem target (related rel recipe db) then (Ok tt, db)
    else (Ok tt, record [InsertLink rel recipe target]
                   (set_through_rows rel
                      (through_rows db rel ++ [(recipe, target)])%list db)).

(** [.remove(obj)] *)
Definition m2m_remove (rel : Relation) (recipe target : nat) : ORM unit :=
  fun db =>
    if mem target (related rel recipe db)
    then (Ok tt, record [DeleteLink rel recipe target]
                   (set_through_rows rel
                      (filter (fun l => negb ((fst l =? recipe) && (snd l =? target)))
                              (through_rows db rel)) db))
    else (Ok tt, db).

(** [.clear()] *)
Definition m2m_clear (rel : Relation) (recipe : nat) : ORM unit :=
  fun db => for_each (related rel recipe db) (m2m_remove rel recipe) db.

(** [.set(objs)]: the related ids that are not among [objs] are removed, the
    ids of [objs] that are not related yet are added. *)
Definition m2m_set (rel : Relation) (recipe : nat) (objs : list nat) : ORM unit :=
  fun db =>
    let old_ids := related rel recipe db in
    let stale := filter (fun i => negb (mem i objs)) old_ids in
    let new_objs := filter (fun i => negb (mem i old_ids)) objs in
    (for_each stale (m2m_remove rel recipe) ;;
     for_each new_objs (m2m_add rel recipe)) db.

(** The [IngredientInRecipe] rows of a recipe ([recipe.ingredients.all()]). *)
Definition recipe_ingredients (recipe : nat) (db : Database) : list IngredientInRecipe :=
  filter (fun row => mem (iir_id row) (related Ingredients recipe db))
         (ingredientinrecipe_rows db).

(** ** The write paths *)

(** What [create] and [update] receive: the validated attributes and the
    keyword arguments of [save]. *)
Record ValidatedData : Type := mkValidatedData {
  vd_tags : list nat;
  vd_ingredients : list IngredientAmount;
  vd_name : string;
  vd_author : nat;
  vd_image : ContentFile;
  vd_text : string;
  vd_cooking_time : nat
}.

(** [validated_data] once ['tags'] and ['ingredients'] are popped. *)
Definition popped (validated_data : ValidatedData) : RecipeFields :=
  mkRecipeFields (vd_name validated_data) (vd_author validated_data)
                 (vd_image validated_data) (vd_text validated_data)
                 (vd_cooking_time validated_data).

(** Modelled from the spec: [add_tags_to_instance] is defined in api/utils.py,
    which is not among the sources.  The spec: associate each supplied tag. *)
Definition add_tags_to_instance (instance : Recipe) (tags : list nat) : ORM unit :=
  for_each tags (m2m_add Tags (recipe_id instance)).

Section RecipeSerializer.

Variable unique_together : bool.

(** [RecipeSerializer.create] *)
Definition create (validated_data : ValidatedData) : ORM Recipe :=
  let tags := vd_tags validated_data in
  let ingredients := vd_ingredients validated_data in
  new_recipe <- Recipe_objects_create (popped validated_data) ;;
  let ingredients_objects_list :=
    map (fun ingredient' =>
           mkIngredientAmount (ingredient ingredient') (amount ingredient'))
        ingredients in
  bulk_create unique_together ingredients_objects_list ;;
  ingredients_queryset <-
    IngredientInRecipe_objects_filter
      (map ingredient ingredients_objects_list)
      (map amount ingredients_objects_list) ;;
  m2m_set Ingredients (recipe_id new_recipe) (map iir_id ingredients_queryset) ;;
  add_tags_to_instance new_recipe tags ;;
  ret new_recipe.

(** [RecipeSerializer.update] *)
Definition update (instance : Recipe) (validated_data : ValidatedData) : ORM Recipe :=
  let tags := vd_tags validated_data in
  m2m_clear Tags (recipe_id instance) ;;
  add_tags_to_instance instance tags ;;
  let ingredients := vd_ingredients validated_data in
  m2m_clear Ingredients (recipe_id instance) ;;
  for_each ingredients
    (fun ingredient' =>
       created <- get_or_create ingredient' ;;
       let ingredient_in_recipe := fst created in
       m2m_add Ingredients (recipe_id instance) (iir_id ingredient_in_recipe)) ;;
  Recipe_save instance (popped validated_data).

End RecipeSerializer.

(** ** [Meta.validators] and the validation pipeline *)

Definition unique_message : string := "Вы уже создавали такой рецепт.".

(** [UniqueTogetherValidator(queryset=Recipe.objects.all(),
    fields=('name', 'author'), message=...)] (framework): the stored recipes
    with this name and this author, the serializer's own instance left out;
    [author] is the read-only field's default, the requesting user. *)
Definition unique_together_validator (instance : option Recipe) (author : nat)
  (attrs : Attrs) : ORM unit :=
  fun db =>
    let queryset :=
      filter (fun r => String.eqb (recipe_name r) (attrs_name attrs)
                       && (recipe_author r =? author))
             (recipe_rows db) in
    let queryset :=
      match instance with
      | None => queryset
      | Some i => filter (fun r => negb (recipe_id r =? recipe_id i)) queryset
      end in
    match queryset with
    | [] => (Ok tt, db)
    | _ :: _ => raise (ValidationError unique_message) db
    end.

Definition with_author (author : nat) (attrs : Attrs) : ValidatedData :=
  mkValidatedData (attrs_tags attrs) (attrs_ingredients attrs) (attrs_name attrs)
                  author (attrs_image attrs) (attrs_text attrs)
                  (attrs_cooking_time attrs).

Section Requests.

Variable b64decode : string -> Result (list byte).
Variable super_to_internal_value : RequestData -> Result Attrs.
Variable unique_together : bool.

(** [Serializer.run_validation] (framework): the conversion, then the
    validators of [Meta], then [validate]. *)
Definition run_validation (instance : option Recipe) (request_user : nat)
  (uuid : string) (data : RequestData) : ORM Attrs :=
  value <- lift (to_internal_value b64decode super_to_internal_value uuid data) ;;
  unique_together_validator instance request_user value ;;
  lift (validate value).

(** Modelled from the spec: the view that drives the serializer
    (api/views.py) is not among the sources.  The spec: a standard
    model-view-serializer CRUD API; a create request is validated and, when
    it is valid, saved, the requesting user being the recipe's author. *)
Definition create_request (request_user : nat) (uuid : string)
  (data : RequestData) : ORM Recipe :=
  validated <- run_validation None request_user uuid data ;;
  create unique_together (with_author request_user validated).

End Requests.

(** ** Computed fields *)

(** [filter(user=value)] on a foreign key that is never null: [None] is
    compared with [IS NULL] and matches no row. *)
Definition fk_exact (column : nat) (value : option nat) : bool :=
  match value with
  | Some v => column =? v
  | None => false
  end.

(** [queryset.exists()] *)
Definition exists_ {A : Type} (queryset : list A) : bool :=
  match queryset with
  | [] => false
  | _ :: _ => true
  end.

(** [RecipeSerializer.get_is_favorited]; [request_user_id] is
    [self.context['request'].user.id], [None] for an anonymous user. *)
Definition get_is_favorited (request_user_id : option nat) (obj : Recipe)
  (db : Database) : bool :=
  exists_ (filter (fun f => fk_exact (favorite_user f) request_user_id
                            && (favorite_recipe f =? recipe_id obj))
                  (favorite_rows db)).

(** [RecipeSerializer.get_is_in_shopping_cart] *)
Definition get_is_in_shopping_cart (request_user_id : option nat) (obj : Recipe)
  (db : Database) : bool :=
  exists_ (filter (fun c => fk_exact (shoppingcart_user c) request_user_id
                            && (shoppingcart_recipe c =? recipe_id obj))
                  (shoppingcart_rows db)).

(** ** Vocabulary of the statements *)

(** The result of database code, and the database it leaves. *)
Definition outcome {A : Type} (m : ORM A) (db : Database) : Result A := fst (m db).

Definition exec {A : Type} (m : ORM A) (db : Database) : Database := snd (m db).

(** Primary keys are unique in the join table. *)
Definition ids_unique (db : Database) : Prop :=
  NoDup (map iir_id (ingredientinrecipe_rows db)).

(** At most one join row per (ingredient, amount). *)
Definition pairs_unique (db : Database) : Prop :=
  NoDup (map pair_of (ingredientinrecipe_rows db)).

(** At most one recipe per (name, author). *)
Definition names_unique (db : Database) : Prop :=
  NoDup (map (fun r => (recipe_name r, recipe_author r)) (recipe_rows db)).

(** A write to the links of [recipe] through [rel]. *)
Definition writes_link (rel : Relation) (recipe : nat) (w : Write) : Prop :=
  exists target, w = InsertLink rel recipe target \/ w = DeleteLink rel recipe target.

(** The parts of the database the related manager of [rel'] leaves alone
    when [rel'] is not its relation. *)
Definition outside (rel' : Relation) (db : Database)
  : list Recipe * list IngredientInRecipe * list (nat * nat)
    * list Favorite * list ShoppingCart :=
  (recipe_rows db, ingredientinrecipe_rows db, through_rows db rel',
   favorite_rows db, shoppingcart_rows db).

(** The parts of the database the join table's manager leaves alone. *)
Definition beside_rows (db : Database)
  : list Recipe * (Relation -> list (nat * nat)) * list Favorite * list ShoppingCart :=
  (recipe_rows db, through_rows db, favorite_rows db, shoppingcart_rows db).

(** The join table grew by the rows [new], and nothing else changed but
    the journal, which grew by their insertions. *)
Definition appends_rows (db db' : Database) (new : list IngredientInRecipe) : Prop :=
  beside_rows db' = beside_rows db
  /\ ingredientinrecipe_rows db' = (ingredientinrecipe_rows db ++ new)%list
  /\ journal db' = (journal db ++ map InsertIngredientInRecipe new)%list.

(** What an upsert of the pairs [kws] for [recipe] leaves behind: the join
    table grew only by rows for pairs of [kws] that had no row, it holds each
    pair at most once, and each pair of [kws] has its one row, related to the
    recipe, which is the row it had before when it had one. *)
Definition upserted (kws : list IngredientAmount) (recipe : nat)
  (db db' : Database) : Prop :=
  exists new,
    ingredientinrecipe_rows db' = (ingredientinrecipe_rows db ++ new)%list
    /\ (forall row, In row new ->
          In (pair_of row) kws
          /\ ~ In (pair_of row) (map pair_of (ingredientinrecipe_rows db)))
    /\ pairs_unique db'
    /\ (forall kw, In kw kws ->
          exists row,
            In row (recipe_ingredients recipe db')
            /\ pair_of row = kw
            /\ (forall row', In row' (ingredientinrecipe_rows db') ->
                             pair_of row' = kw -> row' = row)
            /\ (forall old, In old (ingredientinrecipe_rows db) ->
                            pair_of old = kw -> old = row)).

(** The links through [rel] of the recipes other than [recipe]. *)
Definition links_of_others (rel : Relation) (recipe : nat) (db : Database)
  : list (nat * nat) :=
  filter (fun l => negb (fst l =? recipe)) (through_rows db rel).

(** The tables of the users' choices. *)
Definition choices (db : Database) : list Favorite * list ShoppingCart :=
  (favorite_rows db, shoppingcart_rows db).

(** ** Sample requests *)

Definition sample_data (image : string) : RequestData :=
  mkRequestData (Some (ImageStr image)) "Borscht" "Boil." 90 [1] [mkIngredientAmount 1 2].

Definition sample_b64decode (s : string) : Result (list byte) :=
  if String.eqb s "QUJD" then Ok [x41; x42; x43]%byte else Raise BinasciiError.

Definition sample_super (data : RequestData) : Result Attrs :=
  match data_image data with
  | Some (ImageFile f) =>
      Ok (mkAttrs (data_tags data) (data_ingredients data) (data_name data) f
                  (data_text data) (data_cooking_time data))
  | _ => Raise (ValidationError "image")
  end.

Definition sample_image : ContentFile := mkContentFile [x41; x42; x43]%byte "0f8c.png".

Definition tea : ValidatedData :=
  mkValidatedData [1; 2] [mkIngredientAmount 1 2] "Tea" 7 sample_image "Steep." 5.

Definition soup : ValidatedData :=
  mkValidatedData [2] [mkIngredientAmount 1 1; mkIngredientAmount 2 2]
                  "Soup" 7 sample_image "Boil." 60.

Definition stew : ValidatedData :=
  mkValidatedData [3] [mkIngredientAmount 1 2; mkIngredientAmount 5 5]
                  "Stew" 7 sample_image "Simmer." 120.

(** The database after a recipe with the pair (1, 2) was created. *)
Definition after_tea (unique_together : bool) : Database :=
  exec (create unique_together tea) empty_database.

(** The database after both [tea] and [soup] were created. *)
Definition after_soup : Database := exec (create true soup) (after_tea true).

Definition tea_recipe : Recipe := mkRecipe 1 "Tea" 7 sample_image "Steep." 5.

(** The database after the request [sample_data] was served for user 7. *)
Definition after_borscht : Database :=
  exec (create_request sample_b64decode sample_super true 7 "0f8c"
          (sample_data "data:image/png;base64,QUJD")) empty_database.

Definition stew_recipe : Recipe := mkRecipe 3 "Stew" 7 sample_image "Simmer." 120.

(** Attributes that list the ingredient 1 twice, with two amounts. *)
Definition twice_attrs : Attrs :=
  mkAttrs [1] [mkIngredientAmount 1 2; mkIngredientAmount 1 3]
          "Kvass" sample_image "Ferment." 30.

(** The database after [tea] was created twice with no uniqueness
    constraint on the pair: two rows hold (1, 2). *)
Definition after_two_teas : Database := exec (create false tea) (after_tea false).

(** Closes [NoDup] of a list that is written out. *)
Ltac nodup :=
  repeat (constructor; [simpl; intuition (discriminate || congruence)|]); constructor.

(* ================================================================== *)
(** * Properties *)

(** ** Strings *)

Lemma drop_app (a b : string) : Str.drop (String.length a) (a ++ b) = b.
Proof. induction a as [|c a IH]; simpl; auto. Qed.

Lemma prefix_app (a b : string) : prefix a (a ++ b) = true.
Proof.
  induction a as [|c a IH]; simpl.
  - destruct b; reflexivity.
  - destruct (ascii_dec c c) as [_|n]; [exact IH|congruence].
Qed.

Lemma prefix_inv (a s : string) :
  prefix a s = true -> s = a ++ Str.drop (String.length a) s.
Proof.
  revert s; induction a as [|c a IH]; intros s H; simpl.
  - destruct s; reflexivity.
  - destruct s as [|d s]; simpl in H; [discriminate|].
    destruct (ascii_dec c d) as [->|_]; [|discriminate].
    f_equal. apply IH, H.
Qed.

Lemma app_length (a b : string) :
  String.length (a ++ b) = String.length a + String.length b.
Proof. induction a as [|c a IH]; simpl; auto. Qed.

Lemma app_assoc_str (a b c : string) : (a ++ b) ++ c = a ++ b ++ c.
Proof. induction a as [|x a IH]; simpl; congruence. Qed.

Lemma partition_sound (sep s a b : string) :
  Str.partition sep s = Some (a, b) -> s = a ++ sep ++ b.
Proof.
  revert a b; induction s as [|c s IH]; intros a b H.
  - destruct sep; simpl in H; [|discriminate].
    injection H as <- <-. reflexivity.
  - cbn [Str.partition] in H.
    destruct (prefix sep (String c s)) eqn:P.
    + injection H as <- <-. apply prefix_inv in P. exact P.
    + destruct (Str.partition sep s) as [[a' b']|] eqn:E; [|discriminate].
      injection H as <- <-. simpl. f_equal. apply IH. reflexivity.
Qed.

Lemma partition_complete (sep s : string) :
  Str.contains sep s -> exists a b, Str.partition sep s = Some (a, b).
Proof.
  induction s as [|c s IH]; intros (a & b & E).
  - destruct a; [|discriminate].
    simpl in E. destruct sep; [|discriminate]. simpl. eauto.
  - cbn [Str.partition].
    destruct (prefix sep (String c s)) eqn:P; [eauto|].
    destruct a as [|d a].
    + simpl in E. rewrite E, prefix_app in P. discriminate.
    + simpl in E. injection E as -> E.
      destruct IH as (a' & b' & ->); [exists a, b; exact E|]. eauto.
Qed.

Lemma partition_none (sep s : string) :
  Str.partition sep s = None <-> ~ Str.contains sep s.
Proof.
  split.
  - intros H C. apply partition_complete in C. destruct C as (a & b & C).
    congruence.
  - intros H. destruct (Str.partition sep s) as [[a b]|] eqn:E; [|reflexivity].
    exfalso. apply H. exists a, b. apply partition_sound, E.
Qed.

Lemma app_inv_head_str (a x y : string) : a ++ x = a ++ y -> x = y.
Proof. induction a as [|c a IH]; simpl; intros H; [exact H|]. injection H as H. auto. Qed.

Lemma partition_shorter (sep s a b : string) :
  sep <> EmptyString ->
  Str.partition sep s = Some (a, b) -> String.length b < String.length s.
Proof.
  intros Hsep H. apply partition_sound in H. subst s.
  rewrite !app_length. destruct sep; [congruence|]. simpl. lia.
Qed.

Lemma split_fuel_nonempty (fuel : nat) (sep s : string) :
  Str.split_fuel fuel sep s <> [].
Proof.
  destruct fuel; simpl; [discriminate|].
  destruct (Str.partition sep s) as [[a b]|]; discriminate.
Qed.

(** The fuel [split] starts with is never used up. *)
Lemma split_fuel_enough (sep : string) :
  sep <> EmptyString ->
  forall (fuel fuel' : nat) (s : string),
    String.length s < fuel -> String.length s < fuel' ->
    Str.split_fuel fuel sep s = Str.split_fuel fuel' sep s.
Proof.
  intros Hsep. induction fuel as [|fuel IH]; intros fuel' s H H'; [lia|].
  destruct fuel' as [|fuel']; [lia|]. simpl.
  destruct (Str.partition sep s) as [[a b]|] eqn:E; [|reflexivity].
  f_equal. pose proof (partition_shorter _ _ _ _ Hsep E). apply IH; lia.
Qed.

Lemma split_absent (sep s : string) :
  ~ Str.contains sep s -> Str.split sep s = [s].
Proof.
  intros H. apply partition_none in H. unfold Str.split. simpl. now rewrite H.
Qed.

(** A string that holds the separator exactly once splits in two. *)
Lemma split_once (sep a b : string) :
  sep <> EmptyString ->
  (forall a' b', a ++ sep ++ b = a' ++ sep ++ b' -> a' = a) ->
  Str.split sep (a ++ sep ++ b) = [a; b].
Proof.
  intros Hsep Huniq. unfold Str.split. cbn [Str.split_fuel].
  destruct (partition_complete sep (a ++ sep ++ b)) as (a' & b' & E);
    [exists a, b; reflexivity|].
  rewrite E. pose proof (partition_sound _ _ _ _ E) as S.
  pose proof (Huniq _ _ S) as ->.
  apply app_inv_head_str, app_inv_head_str in S. subst b'.
  assert (N : Str.partition sep b = None).
  { apply partition_none. intros (a2 & b2 & E2).
    specialize (Huniq (a ++ sep ++ a2) b2).
    assert (L : String.length (a ++ sep ++ a2) = String.length a) by
      (f_equal; apply Huniq; rewrite E2, !app_assoc_str; reflexivity).
    rewrite !app_length in L. destruct sep; [congruence|]. simpl in L. lia. }
  assert (F : String.length (a ++ sep ++ b) <> 0).
  { rewrite !app_length. destruct sep; [congruence|]. simpl. lia. }
  destruct (String.length (a ++ sep ++ b)); [congruence|].
  simpl. now rewrite N.
Qed.

Lemma partition_leftmost (sep s a1 b1 a rest : string) :
  Str.partition sep s = Some (a1, b1) -> s = a ++ sep ++ rest ->
  String.length a1 <= String.length a.
Proof.
  revert a1 a. induction s as [|c s IH]; intros a1 a P E.
  - destruct sep; simpl in P; [|discriminate]. injection P as <- _. simpl. lia.
  - cbn [Str.partition] in P. destruct (prefix sep (String c s)) eqn:F.
    + injection P as <- _. simpl. lia.
    + destruct (Str.partition sep s) as [[a1' b1']|] eqn:Q; [|discriminate].
      injection P as <- <-. destruct a as [|d a].
      * simpl in E. rewrite E, prefix_app in F. discriminate.
      * simpl in E. injection E as _ E. simpl.
        specialize (IH a1' a eq_refl E). lia.
Qed.

Lemma drop_app_le (n : nat) (x y : string) :
  n <= String.length x -> Str.drop n (x ++ y) = Str.drop n x ++ y.
Proof.
  revert x. induction n as [|n IH]; intros x L; [reflexivity|].
  destruct x as [|c x]; simpl in L; [lia|]. simpl. apply IH. lia.
Qed.

(** A string that holds the separator twice splits in three pieces or more. *)
Lemma split_twice (sep a b c : string) :
  sep <> EmptyString ->
  exists x y z rest,
    Str.split sep (a ++ sep ++ b ++ sep ++ c) = x :: y :: z :: rest.
Proof.
  intros Hsep. set (s := a ++ sep ++ b ++ sep ++ c).
  destruct (partition_complete sep s) as (a1 & b1 & P1);
    [exists a, (b ++ sep ++ c); reflexivity|].
  pose proof (partition_sound _ _ _ _ P1) as S1.
  pose proof (partition_leftmost _ _ _ _ a (b ++ sep ++ c) P1 eq_refl) as L.
  assert (C : Str.contains sep b1).
  { assert (D : b1 = Str.drop (String.length (a1 ++ sep)) s).
    { rewrite S1 at 1. rewrite <- app_assoc_str. now rewrite drop_app. }
    exists (Str.drop (String.length (a1 ++ sep)) (a ++ sep ++ b)), c.
    rewrite D. unfold s.
    replace (a ++ sep ++ b ++ sep ++ c) with ((a ++ sep ++ b) ++ sep ++ c)
      by now rewrite !app_assoc_str.
    apply drop_app_le. rewrite !app_length. lia. }
  destruct (partition_complete sep b1 C) as (a2 & b2 & P2).
  unfold Str.split. cbn [Str.split_fuel]. rewrite P1.
  assert (F : String.length s <> 0).
  { unfold s. rewrite !app_length. destruct sep; [congruence|]. simpl. lia. }
  destruct (String.length s) as [|fuel]; [congruence|].
  cbn [Str.split_fuel]. rewrite P2.
  pose proof (split_fuel_nonempty fuel sep b2) as N.
  destruct (Str.split_fuel fuel sep b2) as [|z rest]; [congruence|].
  now exists a1, a2, z, rest.
Qed.

(** The last piece of a split: the text after the last separator. *)
Lemma last_split_fuel (sep : string) :
  sep <> EmptyString ->
  forall (fuel : nat) (s : string),
    String.length s < fuel ->
    let e := last (Str.split_fuel fuel sep s) EmptyString in
    ~ Str.contains sep e /\ (s = e \/ exists p, s = p ++ sep ++ e).
Proof.
  intros Hsep. induction fuel as [|fuel IH]; intros s H; [lia|].
  cbn [Str.split_fuel].
  destruct (Str.partition sep s) as [[a b]|] eqn:E.
  - pose proof (partition_shorter _ _ _ _ Hsep E) as L.
    pose proof (partition_sound _ _ _ _ E) as S.
    destruct (IH b ltac:(lia)) as [N D].
    assert (R : last (a :: Str.split_fuel fuel sep b) EmptyString
                = last (Str.split_fuel fuel sep b) EmptyString).
    { pose proof (split_fuel_nonempty fuel sep b).
      destruct (Str.split_fuel fuel sep b); [congruence|reflexivity]. }
    cbv zeta. rewrite R. split; [exact N|]. right.
    destruct D as [D|(p & D)].
    + exists a. rewrite S, D at 1. reflexivity.
    + exists (a ++ sep ++ p). rewrite S. rewrite D at 1.
      now rewrite !app_assoc_str.
  - simpl. split; [now apply partition_none|now left].
Qed.

Lemma last_split (sep s : string) :
  sep <> EmptyString ->
  let e := last (Str.split sep s) EmptyString in
  ~ Str.contains sep e /\ (s = e \/ exists p, s = p ++ sep ++ e).
Proof. intros Hsep. apply last_split_fuel; [exact Hsep|lia]. Qed.

Lemma occurrences_spec (sep a b : string) :
  In (String.length a) (Str.occurrences sep (a ++ sep ++ b)).
Proof.
  induction a as [|c a IH].
  - cbn [String.length append]. destruct (sep ++ b) eqn:E;
      cbn [Str.occurrences]; rewrite <- E, prefix_app; now left.
  - cbn [String.length append Str.occurrences]. apply in_or_app. right.
    apply in_map, IH.
Qed.

Lemma app_same_length (a a' x y : string) :
  a ++ x = a' ++ y -> String.length a = String.length a' -> a = a'.
Proof.
  revert a'; induction a as [|c a IH]; intros [|c' a'] E L; try discriminate.
  - reflexivity.
  - simpl in E, L. injection E as -> E. f_equal. apply IH; [exact E|lia].
Qed.

(** A way to check that a separator occurs exactly once. *)
Lemma once_by_occurrences (sep a b : string) :
  Str.occurrences sep (a ++ sep ++ b) = [String.length a] ->
  forall a' b' : string, a ++ sep ++ b = a' ++ sep ++ b' -> a' = a.
Proof.
  intros H a' b' E. pose proof (occurrences_spec sep a' b') as I.
  rewrite <- E, H in I. destruct I as [I|[]].
  symmetry. eapply app_same_length; eauto.
Qed.

(** ** [to_internal_value] *)

Lemma base64_marker_nonempty : base64_marker <> EmptyString.
Proof. discriminate. Qed.

Section ToInternalValueFacts.

Variable b64decode : string -> Result (list byte).
Variable super_to_internal_value : RequestData -> Result Attrs.

(** C4, amended.  When the ['image'] string holds [';base64,'] exactly
    once, the field is replaced by a file whose content is the
    base64-decoding of the text after the marker (a decoding error
    propagates) and whose name is the generated identifier, a dot, and the
    text after the last ['/'] of the part before the marker; the data so
    changed goes to the framework's conversion. *)
Theorem to_internal_value_decodes_image
  (uuid : string) (data : RequestData) (format imgstr : string) :
  data_image data = Some (ImageStr (format ++ base64_marker ++ imgstr)) ->
  (forall a b : string,
      format ++ base64_marker ++ imgstr = a ++ base64_marker ++ b -> a = format) ->
  exists ext : string,
    ~ Str.contains "/" ext
    /\ (format = ext \/ exists p : string, format = p ++ "/" ++ ext)
    /\ to_internal_value b64decode super_to_internal_value uuid data =
       match b64decode imgstr with
       | Ok content =>
           super_to_internal_value
             (set_image data
                (ImageFile (mkContentFile content (uuid ++ "." ++ ext))))
       | Raise e => Raise e
       end.
Proof.
  intros Himage Honce.
  exists (last (Str.split "/" format) EmptyString).
  destruct (last_split "/" format ltac:(discriminate)) as [Hno Hlast].
  split; [exact Hno|]. split; [exact Hlast|].
  unfold to_internal_value. rewrite Himage.
  rewrite (split_once _ _ _ base64_marker_nonempty Honce).
  destruct (b64decode imgstr); reflexivity.
Qed.

(** C8.  When the ['image'] string does not hold [';base64,'], the split
    has one piece, the two-element unpacking raises [ValueError], and that
    is not a validation error. *)
Theorem to_internal_value_no_marker
  (uuid : string) (data : RequestData) (image : string) :
  data_image data = Some (ImageStr image) ->
  ~ Str.contains base64_marker image ->
  Str.split base64_marker image = [image]
  /\ to_internal_value b64decode super_to_internal_value uuid data = Raise ValueError
  /\ is_validation_error
       (to_internal_value b64decode super_to_internal_value uuid data) = false.
Proof.
  intros Himage Habsent.
  pose proof (split_absent _ _ Habsent) as Hsplit.
  assert (E : to_internal_value b64decode super_to_internal_value uuid data
              = Raise ValueError).
  { unfold to_internal_value. rewrite Himage, Hsplit. reflexivity. }
  rewrite E. split; [exact Hsplit|]. split; reflexivity.
Qed.

(** With the marker twice in the string the unpacking raises as well. *)
Lemma to_internal_value_marker_twice
  (uuid : string) (data : RequestData) (a b c : string) :
  data_image data
  = Some (ImageStr (a ++ base64_marker ++ b ++ base64_marker ++ c)) ->
  to_internal_value b64decode super_to_internal_value uuid data = Raise ValueError.
Proof.
  intros Himage. unfold to_internal_value. rewrite Himage.
  destruct (split_twice base64_marker a b c base64_marker_nonempty)
    as (x & y & z & rest & ->).
  reflexivity.
Qed.

End ToInternalValueFacts.

(** A data URI of a PNG image, the marker once. *)
Lemma to_internal_value_decodes_image_witness :
  exists ext : string,
    ~ Str.contains "/" ext
    /\ ("data:image/png" = ext \/ exists p : string, "data:image/png" = p ++ "/" ++ ext)
    /\ to_internal_value sample_b64decode sample_super "0f8c"
         (sample_data "data:image/png;base64,QUJD") =
       match sample_b64decode "QUJD" with
       | Ok content =>
           sample_super
             (set_image (sample_data "data:image/png;base64,QUJD")
                (ImageFile (mkContentFile content ("0f8c" ++ "." ++ ext))))
       | Raise e => Raise e
       end.
Proof.
  apply (to_internal_value_decodes_image sample_b64decode sample_super
           "0f8c" (sample_data "data:image/png;base64,QUJD")
           "data:image/png" "QUJD").
  - reflexivity.
  - apply once_by_occurrences. reflexivity.
Defined.

(** C4, as stated, fails: with [';base64,'] twice in the string the split
    has three pieces and the unpacking raises [ValueError], whatever the
    decoder and the framework's conversion do. *)
Lemma to_internal_value_two_markers :
  let image := "data:image/png;base64,QUJD;base64,QUJD" in
  Str.contains base64_marker image
  /\ Str.split base64_marker image = ["data:image/png"; "QUJD"; "QUJD"]
  /\ forall b64decode super_to_internal_value uuid,
       to_internal_value b64decode super_to_internal_value uuid (sample_data image)
       = Raise ValueError.
Proof.
  cbv zeta. split; [|split].
  - exists "data:image/png", "QUJD;base64,QUJD". reflexivity.
  - reflexivity.
  - intros. reflexivity.
Qed.

(** A file name sent in place of a data URI. *)
Lemma to_internal_value_no_marker_witness :
  Str.split base64_marker "image.png" = ["image.png"]
  /\ to_internal_value sample_b64decode sample_super "0f8c" (sample_data "image.png")
     = Raise ValueError
  /\ is_validation_error
       (to_internal_value sample_b64decode sample_super "0f8c" (sample_data "image.png"))
     = false.
Proof.
  apply (to_internal_value_no_marker sample_b64decode sample_super "0f8c"
           (sample_data "image.png") "image.png").
  - reflexivity.
  - apply partition_none. reflexivity.
Defined.

(** ** [validate] *)

Lemma existsb_eqb_In (x : nat) (l : list nat) :
  existsb (Nat.eqb x) l = true <-> In x l.
Proof.
  rewrite existsb_exists. split.
  - intros (y & I & E). apply Nat.eqb_eq in E. now subst.
  - intros I. exists x. split; [exact I|apply Nat.eqb_refl].
Qed.

Lemma mem_In (x : nat) (l : list nat) : mem x l = true <-> In x l.
Proof. apply existsb_eqb_In. Qed.

Lemma has_dublicates_false (l : list nat) : has_dublicates l = false <-> NoDup l.
Proof.
  induction l as [|x l IH]; simpl.
  - split; [constructor|reflexivity].
  - rewrite orb_false_iff, IH. split.
    + intros [N D]. constructor; [|exact D].
      rewrite <- existsb_eqb_In. congruence.
    + intros D. inversion D as [|? ? N D']; subst. split; [|exact D'].
      destruct (existsb (Nat.eqb x) l) eqn:E; [|reflexivity].
      apply existsb_eqb_In in E. contradiction.
Qed.

Lemma has_dublicates_true (l : list nat) : has_dublicates l = true <-> ~ NoDup l.
Proof.
  rewrite <- has_dublicates_false. destruct (has_dublicates l); split; congruence.
Qed.

(** C3.  [validate] raises a validation error exactly when the ingredient
    ids or the tags hold a duplicate; the message is the ingredients' one
    when the ingredient ids hold a duplicate and the tags' one when only the
    tags do, and the two differ; without duplicates the data is returned as
    it came. *)
Theorem validate_rejects_dublicates (data : Attrs) :
  let ingredients := map ingredient (attrs_ingredients data) in
  let tags := attrs_tags data in
  ((exists e, validate data = Raise e) <-> ~ NoDup ingredients \/ ~ NoDup tags)
  /\ (is_validation_error (validate data) = true
      <-> ~ NoDup ingredients \/ ~ NoDup tags)
  /\ (~ NoDup ingredients ->
      validate data = Raise (ValidationError ingredients_error))
  /\ (NoDup ingredients -> ~ NoDup tags ->
      validate data = Raise (ValidationError tags_error))
  /\ (NoDup ingredients -> NoDup tags -> validate data = Ok data)
  /\ ingredients_error <> tags_error.
Proof.
  cbv zeta. unfold validate, check_for_dublicates.
  destruct (has_dublicates (map ingredient (attrs_ingredients data))) eqn:I;
    destruct (has_dublicates (attrs_tags data)) eqn:T;
    try apply has_dublicates_true in I; try apply has_dublicates_false in I;
    try apply has_dublicates_true in T; try apply has_dublicates_false in T;
    cbn [is_validation_error];
    repeat match goal with |- _ /\ _ => split | |- _ <-> _ => split end;
    try solve [ intros; try reflexivity; try contradiction; eauto
              | intros [e ?]; discriminate
              | intros [?|?]; contradiction
              | discriminate ].
Qed.

(** ** Computed fields *)

Lemma exists_filter {A : Type} (f : A -> bool) (l : list A) :
  exists_ (filter f l) = true <-> exists x, In x l /\ f x = true.
Proof.
  split.
  - destruct (filter f l) as [|x r] eqn:E; [discriminate|]. intros _.
    exists x. apply filter_In. rewrite E. now left.
  - intros (x & I). apply filter_In in I.
    destruct (filter f l); [destruct I|reflexivity].
Qed.

(** C9.  [is_favorited] holds exactly when a [Favorite] row links the
    requesting user's id to the recipe's id, [is_in_shopping_cart] exactly
    when a [ShoppingCart] row does; for a request without a user id both
    are false. *)
Theorem computed_fields_follow_rows
  (request_user_id : option nat) (obj : Recipe) (db : Database) :
  (get_is_favorited request_user_id obj db = true
   <-> exists f, In f (favorite_rows db)
                 /\ Some (favorite_user f) = request_user_id
                 /\ favorite_recipe f = recipe_id obj)
  /\ (get_is_in_shopping_cart request_user_id obj db = true
      <-> exists c, In c (shoppingcart_rows db)
                    /\ Some (shoppingcart_user c) = request_user_id
                    /\ shoppingcart_recipe c = recipe_id obj)
  /\ get_is_favorited None obj db = false
  /\ get_is_in_shopping_cart None obj db = false.
Proof.
  assert (K : forall column value, fk_exact column value = true <-> Some column = value).
  { intros column [v|]; simpl; [|split; discriminate].
    rewrite Nat.eqb_eq. split; congruence. }
  unfold get_is_favorited, get_is_in_shopping_cart.
  split; [|split; [|split]].
  - rewrite exists_filter. split; intros (f & I & H); exists f; split; auto.
    + apply andb_true_iff in H. destruct H as [U R].
      apply K in U. apply Nat.eqb_eq in R. auto.
    + destruct H as [U R]. apply andb_true_iff. split; [now apply K|now apply Nat.eqb_eq].
  - rewrite exists_filter. split; intros (f & I & H); exists f; split; auto.
    + apply andb_true_iff in H. destruct H as [U R].
      apply K in U. apply Nat.eqb_eq in R. auto.
    + destruct H as [U R]. apply andb_true_iff. split; [now apply K|now apply Nat.eqb_eq].
  - destruct (exists_ _) eqn:E; [|reflexivity].
    apply exists_filter in E. destruct E as (f & _ & H). discriminate.
  - destruct (exists_ _) eqn:E; [|reflexivity].
    apply exists_filter in E. destruct E as (f & _ & H). discriminate.
Qed.

(** ** Running database code *)

Lemma run_eq {A : Type} (m : ORM A) (db : Database) :
  m db = (outcome m db, exec m db).
Proof. unfold outcome, exec. now destruct (m db). Qed.

Lemma outcome_bind {A B : Type} (m : ORM A) (k : A -> ORM B) (db : Database) :
  outcome (bind m k) db =
  match outcome m db with
  | Ok a => outcome (k a) (exec m db)
  | Raise e => Raise e
  end.
Proof. unfold outcome, exec, bind. destruct (m db) as [[a|e] db']; reflexivity. Qed.

Lemma exec_bind {A B : Type} (m : ORM A) (k : A -> ORM B) (db : Database) :
  exec (bind m k) db =
  match outcome m db with
  | Ok a => exec (k a) (exec m db)
  | Raise e => exec m db
  end.
Proof. unfold outcome, exec, bind. destruct (m db) as [[a|e] db']; reflexivity. Qed.

Lemma for_each_ok {A : Type} (body : A -> ORM unit) (l : list A) :
  (forall x db, outcome (body x) db = Ok tt) ->
  forall db, outcome (for_each l body) db = Ok tt.
Proof.
  intros H. induction l as [|x l IH]; intros db; cbn [for_each].
  - reflexivity.
  - rewrite outcome_bind, H. apply IH.
Qed.

Lemma exec_for_each_cons {A : Type} (body : A -> ORM unit) (x : A) (l : list A)
  (db : Database) :
  outcome (body x) db = Ok tt ->
  exec (for_each (x :: l) body) db = exec (for_each l body) (exec (body x) db).
Proof. intros H. cbn [for_each]. now rewrite exec_bind, H. Qed.

(** A component of the database that no step of a loop changes. *)
Lemma for_each_preserves {A X : Type} (proj : Database -> X) (body : A -> ORM unit)
  (l : list A) :
  (forall x db, proj (exec (body x) db) = proj db) ->
  forall db, proj (exec (for_each l body) db) = proj db.
Proof.
  intros H. induction l as [|x l IH]; intros db; cbn [for_each].
  - reflexivity.
  - rewrite exec_bind. destruct (outcome (body x) db); [rewrite IH|]; apply H.
Qed.

(** The writes of a loop are the writes of its steps. *)
Lemma for_each_journal {A : Type} (P : Write -> Prop) (body : A -> ORM unit)
  (l : list A) :
  (forall x db, exists ws,
      journal (exec (body x) db) = (journal db ++ ws)%list /\ Forall P ws) ->
  forall db, exists ws,
      journal (exec (for_each l body) db) = (journal db ++ ws)%list /\ Forall P ws.
Proof.
  intros H. induction l as [|x l IH]; intros db; cbn [for_each].
  - exists []. split; [now rewrite app_nil_r|constructor].
  - rewrite exec_bind. destruct (H x db) as (ws & J & F).
    destruct (outcome (body x) db); [|eauto].
    destruct (IH (exec (body x) db)) as (ws' & J' & F').
    exists (ws ++ ws')%list. split.
    + now rewrite J', J, app_assoc.
    + apply Forall_app. auto.
Qed.

(** ** Related managers *)

Lemma Relation_eqb_refl (rel : Relation) : Relation_eqb rel rel = true.
Proof. now destruct rel. Qed.

Lemma related_In (rel : Relation) (recipe i : nat) (db : Database) :
  In i (related rel recipe db) <-> In (recipe, i) (through_rows db rel).
Proof.
  unfold related. rewrite in_map_iff. split.
  - intros ([r j] & E & I). simpl in E. subst j. apply filter_In in I.
    destruct I as [I F]. simpl in F. apply Nat.eqb_eq in F. now subst.
  - intros I. exists (recipe, i). split; [reflexivity|].
    apply filter_In. split; [exact I|apply Nat.eqb_refl].
Qed.

Section RelatedManager.

Variables (rel : Relation) (recipe : nat).

Lemma m2m_add_ok (target : nat) (db : Database) :
  outcome (m2m_add rel recipe target) db = Ok tt.
Proof. unfold outcome, m2m_add. now destruct (mem _ _). Qed.

Lemma m2m_remove_ok (target : nat) (db : Database) :
  outcome (m2m_remove rel recipe target) db = Ok tt.
Proof. unfold outcome, m2m_remove. now destruct (mem _ _). Qed.

Lemma m2m_add_links (target : nat) (db : Database) (r i : nat) :
  In (r, i) (through_rows (exec (m2m_add rel recipe target) db) rel)
  <-> In (r, i) (through_rows db rel) \/ (r = recipe /\ i = target).
Proof.
  unfold exec, m2m_add. destruct (mem _ _) eqn:M; simpl.
  - apply mem_In, related_In in M. split; [auto|].
    intros [I|[-> ->]]; auto.
  - rewrite Relation_eqb_refl, in_app_iff. simpl. split.
    + intros [I|[E|[]]]; [auto|]. injection E as <- <-. auto.
    + intros [I|[-> ->]]; auto.
Qed.

Lemma m2m_remove_links (target : nat) (db : Database) (r i : nat) :
  In (r, i) (through_rows (exec (m2m_remove rel recipe target) db) rel)
  <-> In (r, i) (through_rows db rel) /\ ~ (r = recipe /\ i = target).
Proof.
  unfold exec, m2m_remove. destruct (mem _ _) eqn:M; simpl.
  - rewrite Relation_eqb_refl, filter_In. simpl.
    rewrite negb_true_iff, andb_false_iff, !Nat.eqb_neq. split.
    + intros [I N]. split; [exact I|]. intros [-> ->]. destruct N; congruence.
    + intros [I N]. split; [exact I|].
      destruct (Nat.eq_dec r recipe) as [->|]; [|auto].
      right. intros ->. auto.
  - split; [|tauto]. intros I. split; [exact I|]. intros [-> ->].
    apply related_In, mem_In in I. congruence.
Qed.

Lemma add_all_links (targets : list nat) (db : Database) (r i : nat) :
  In (r, i) (through_rows (exec (for_each targets (m2m_add rel recipe)) db) rel)
  <-> In (r, i) (through_rows db rel) \/ (r = recipe /\ In i targets).
Proof.
  revert db. induction targets as [|t l IH]; intros db.
  - simpl. tauto.
  - rewrite exec_for_each_cons by apply m2m_add_ok.
    rewrite IH, m2m_add_links. simpl. intuition.
Qed.

Lemma remove_all_links (targets : list nat) (db : Database) (r i : nat) :
  In (r, i) (through_rows (exec (for_each targets (m2m_remove rel recipe)) db) rel)
  <-> In (r, i) (through_rows db rel) /\ ~ (r = recipe /\ In i targets).
Proof.
  revert db. induction targets as [|t l IH]; intros db.
  - simpl. tauto.
  - rewrite exec_for_each_cons by apply m2m_remove_ok.
    rewrite IH, m2m_remove_links. simpl. intuition.
Qed.

Lemma m2m_clear_ok (db : Database) : outcome (m2m_clear rel recipe) db = Ok tt.
Proof. apply (for_each_ok _ _ m2m_remove_ok). Qed.

Lemma m2m_clear_links (db : Database) (r i : nat) :
  In (r, i) (through_rows (exec (m2m_clear rel recipe) db) rel)
  <-> In (r, i) (through_rows db rel) /\ r <> recipe.
Proof.
  unfold m2m_clear.
  change (exec (fun db0 => for_each (related rel recipe db0) (m2m_remove rel recipe) db0) db)
    with (exec (for_each (related rel recipe db) (m2m_remove rel recipe)) db).
  rewrite remove_all_links. split.
  - intros [I N]. split; [exact I|]. intros ->. apply N. split; [reflexivity|].
    now apply related_In.
  - intros [I N]. split; [exact I|]. intros [E _]. contradiction.
Qed.

Lemma m2m_set_eq (objs : list nat) (db : Database) :
  m2m_set rel recipe objs db =
  bind (for_each (filter (fun i => negb (mem i objs)) (related rel recipe db))
                 (m2m_remove rel recipe))
       (fun _ => for_each (filter (fun i => negb (mem i (related rel recipe db))) objs)
                          (m2m_add rel recipe)) db.
Proof. reflexivity. Qed.

Lemma m2m_set_ok (objs : list nat) (db : Database) :
  outcome (m2m_set rel recipe objs) db = Ok tt.
Proof.
  unfold outcome at 1. rewrite m2m_set_eq.
  match goal with |- fst (bind ?m ?k db) = _ => change (outcome (bind m k) db = Ok tt) end.
  rewrite outcome_bind, (for_each_ok _ _ m2m_remove_ok).
  apply (for_each_ok _ _ m2m_add_ok).
Qed.

Lemma m2m_set_links (objs : list nat) (db : Database) (r i : nat) :
  In (r, i) (through_rows (exec (m2m_set rel recipe objs) db) rel)
  <-> (r <> recipe /\ In (r, i) (through_rows db rel)) \/ (r = recipe /\ In i objs).
Proof.
  unfold exec at 1. rewrite m2m_set_eq.
  match goal with
  | |- In _ (through_rows (snd (bind ?m ?k db)) _) <-> _ =>
      change (snd (bind m k db)) with (exec (bind m k) db)
  end.
  rewrite exec_bind, (for_each_ok _ _ m2m_remove_ok).
  rewrite add_all_links, remove_all_links, !filter_In.
  rewrite !negb_true_iff.
  assert (D : forall l, mem i l = false <-> ~ In i l).
  { intros l. rewrite <- mem_In. destruct (mem i l); split; congruence. }
  rewrite !D, related_In.
  assert (L : In (recipe, i) (through_rows db rel)
              \/ ~ In (recipe, i) (through_rows db rel)).
  { rewrite <- related_In.
    destruct (in_dec Nat.eq_dec i (related rel recipe db)); auto. }
  destruct (Nat.eq_dec r recipe) as [->|N].
  - destruct (in_dec Nat.eq_dec i objs); tauto.
  - tauto.
Qed.

End RelatedManager.

(** *** What the related managers leave alone, and what they write *)

Lemma m2m_add_outside (rel rel' : Relation) (recipe target : nat) (db : Database) :
  Relation_eqb rel' rel = false ->
  outside rel' (exec (m2m_add rel recipe target) db) = outside rel' db.
Proof.
  intros N. unfold exec, m2m_add, outside.
  destruct (mem _ _); simpl; [reflexivity|]. now rewrite N.
Qed.

Lemma m2m_remove_outside (rel rel' : Relation) (recipe target : nat) (db : Database) :
  Relation_eqb rel' rel = false ->
  outside rel' (exec (m2m_remove rel recipe target) db) = outside rel' db.
Proof.
  intros N. unfold exec, m2m_remove, outside.
  destruct (mem _ _); simpl; [|reflexivity]. now rewrite N.
Qed.

Lemma m2m_clear_outside (rel rel' : Relation) (recipe : nat) (db : Database) :
  Relation_eqb rel' rel = false ->
  outside rel' (exec (m2m_clear rel recipe) db) = outside rel' db.
Proof.
  intros N.
  apply (for_each_preserves (outside rel') (m2m_remove rel recipe)).
  intros. now apply m2m_remove_outside.
Qed.

Lemma add_all_outside (rel rel' : Relation) (recipe : nat) (targets : list nat)
  (db : Database) :
  Relation_eqb rel' rel = false ->
  outside rel' (exec (for_each targets (m2m_add rel recipe)) db) = outside rel' db.
Proof.
  intros N. apply for_each_preserves. intros. now apply m2m_add_outside.
Qed.

Lemma m2m_set_outside (rel rel' : Relation) (recipe : nat) (objs : list nat)
  (db : Database) :
  Relation_eqb rel' rel = false ->
  outside rel' (exec (m2m_set rel recipe objs) db) = outside rel' db.
Proof.
  intros N. unfold exec at 1. rewrite m2m_set_eq.
  match goal with
  | |- outside _ (snd (bind ?m ?k db)) = _ =>
      change (snd (bind m k db)) with (exec (bind m k) db)
  end.
  rewrite exec_bind, (for_each_ok _ _ (m2m_remove_ok rel recipe)).
  rewrite add_all_outside by exact N.
  apply for_each_preserves. intros. now apply m2m_remove_outside.
Qed.

Lemma m2m_add_journal (rel : Relation) (recipe target : nat) (db : Database) :
  exists ws,
    journal (exec (m2m_add rel recipe target) db) = (journal db ++ ws)%list
    /\ Forall (fun w => w = InsertLink rel recipe target) ws.
Proof.
  unfold exec, m2m_add. destruct (mem _ _); simpl.
  - exists []. split; [now rewrite app_nil_r|constructor].
  - eexists. split; [reflexivity|]. repeat constructor.
Qed.

Lemma m2m_remove_journal (rel : Relation) (recipe target : nat) (db : Database) :
  exists ws,
    journal (exec (m2m_remove rel recipe target) db) = (journal db ++ ws)%list
    /\ Forall (writes_link rel recipe) ws.
Proof.
  unfold exec, m2m_remove. destruct (mem _ _); simpl.
  - eexists. split; [reflexivity|]. repeat constructor. exists target. now right.
  - exists []. split; [now rewrite app_nil_r|constructor].
Qed.

Lemma add_all_journal (rel : Relation) (recipe : nat) (targets : list nat)
  (db : Database) :
  exists ws,
    journal (exec (for_each targets (m2m_add rel recipe)) db) = (journal db ++ ws)%list
    /\ Forall (fun w => exists t, In t targets /\ w = InsertLink rel recipe t) ws.
Proof.
  revert db. induction targets as [|t l IH]; intros db.
  - exists []. split; [now rewrite app_nil_r|constructor].
  - rewrite exec_for_each_cons by apply m2m_add_ok.
    destruct (m2m_add_journal rel recipe t db) as (ws & J & F).
    destruct (IH (exec (m2m_add rel recipe t) db)) as (ws' & J' & F').
    exists (ws ++ ws')%list. split; [now rewrite J', J, app_assoc|].
    apply Forall_app. split.
    + eapply Forall_impl; [|exact F]. intros w ->. exists t. split; [now left|reflexivity].
    + eapply Forall_impl; [|exact F']. intros w (t' & I & ->). exists t'.
      split; [now right|reflexivity].
Qed.

Lemma m2m_set_journal (rel : Relation) (recipe : nat) (objs : list nat)
  (db : Database) :
  exists ws,
    journal (exec (m2m_set rel recipe objs) db) = (journal db ++ ws)%list
    /\ Forall (writes_link rel recipe) ws.
Proof.
  unfold exec at 1. rewrite m2m_set_eq.
  match goal with
  | |- exists ws, journal (snd (bind ?m ?k db)) = _ /\ _ =>
      change (snd (bind m k db)) with (exec (bind m k) db)
  end.
  rewrite exec_bind, (for_each_ok _ _ (m2m_remove_ok rel recipe)).
  match goal with
  | |- context [exec (for_each ?stale (m2m_remove rel recipe)) db] =>
      destruct (for_each_journal (writes_link rel recipe) (m2m_remove rel recipe)
                  stale (m2m_remove_journal rel recipe) db) as (ws & J & F)
  end.
  match goal with
  | |- context [exec (for_each ?new (m2m_add rel recipe)) ?db1] =>
      destruct (add_all_journal rel recipe new db1) as (ws' & J' & F')
  end.
  exists (ws ++ ws')%list. split; [now rewrite J', J, app_assoc|].
  apply Forall_app. split; [exact F|].
  eapply Forall_impl; [|exact F']. intros w (t & _ & ->). exists t. now left.
Qed.

(** ** The join table's manager *)

Lemma next_id_fresh (ids : list nat) : ~ In (next_id ids) ids.
Proof.
  intros I. unfold next_id in I.
  assert (L : Forall (fun k => k <= list_max ids) ids) by now apply list_max_le.
  rewrite Forall_forall in L. apply L in I. lia.
Qed.

Lemma holds_pair (kw : IngredientAmount) (row : IngredientInRecipe) :
  holds kw row = true <-> pair_of row = kw.
Proof.
  unfold holds, pair_of. rewrite andb_true_iff, !Nat.eqb_eq. destruct kw as [i a].
  simpl. split; [intros [-> ->]; reflexivity|intros E; injection E; auto].
Qed.

Lemma existsb_holds (kw : IngredientAmount) (rows : list IngredientInRecipe) :
  existsb (holds kw) rows = true <-> In kw (map pair_of rows).
Proof.
  rewrite existsb_exists, in_map_iff. split.
  - intros (row & I & H). apply holds_pair in H. eauto.
  - intros (row & E & I). apply holds_pair in E. eauto.
Qed.

Lemma NoDup_map_snoc {A B : Type} (f : A -> B) (l : list A) (x : A) :
  NoDup (map f l) -> ~ In (f x) (map f l) -> NoDup (map f (l ++ [x])).
Proof.
  intros D N. rewrite map_app. simpl. apply NoDup_app; [exact D|repeat constructor; auto|].
  intros b I [<-|[]]. contradiction.
Qed.

Lemma NoDup_map_inj {A B : Type} (f : A -> B) (l : list A) (x y : A) :
  NoDup (map f l) -> In x l -> In y l -> f x = f y -> x = y.
Proof.
  induction l as [|a l IH]; simpl; intros D Ix Iy E; [destruct Ix|].
  inversion D as [|? ? N D']; subst.
  destruct Ix as [->|Ix], Iy as [->|Iy]; auto.
  - exfalso. apply N. rewrite E. now apply in_map.
  - exfalso. apply N. rewrite <- E. now apply in_map.
Qed.

Lemma appends_rows_refl (db : Database) : appends_rows db db [].
Proof. unfold appends_rows. simpl. now rewrite !app_nil_r. Qed.

Lemma appends_rows_trans (db db1 db2 : Database) (n1 n2 : list IngredientInRecipe) :
  appends_rows db db1 n1 -> appends_rows db1 db2 n2 ->
  appends_rows db db2 (n1 ++ n2).
Proof.
  intros (B1 & R1 & J1) (B2 & R2 & J2). unfold appends_rows.
  rewrite B2, B1, R2, R1, J2, J1, map_app, !app_assoc. auto.
Qed.

Lemma insert_appends (kw : IngredientAmount) (db : Database) :
  exists row,
    insert_ingredientinrecipe kw db
    = (Ok row, exec (insert_ingredientinrecipe kw) db)
    /\ appends_rows db (exec (insert_ingredientinrecipe kw) db) [row]
    /\ pair_of row = kw
    /\ ~ In (iir_id row) (map iir_id (ingredientinrecipe_rows db)).
Proof.
  eexists. split; [reflexivity|]. split; [now unfold appends_rows|].
  split; [now destruct kw|]. apply next_id_fresh.
Qed.

Section BulkCreate.

Variable unique_together : bool.

Lemma insert_ignore_conflicts_spec (obj : IngredientAmount) (db : Database) :
  outcome (insert_ignore_conflicts unique_together obj) db = Ok tt
  /\ exists new,
      let db' := exec (insert_ignore_conflicts unique_together obj) db in
      appends_rows db db' new
      /\ (forall row, In row new -> pair_of row = obj)
      /\ In obj (map pair_of (ingredientinrecipe_rows db'))
      /\ (ids_unique db -> ids_unique db')
      /\ (unique_together = true -> pairs_unique db -> pairs_unique db').
Proof.
  unfold outcome, exec, insert_ignore_conflicts.
  destruct (unique_together && existsb (holds obj) (ingredientinrecipe_rows db)) eqn:C.
  - split; [reflexivity|]. exists []. cbv zeta. simpl.
    apply andb_true_iff in C. destruct C as [_ C]. apply existsb_holds in C.
    split; [apply appends_rows_refl|]. repeat split; auto. intros row [].
  - destruct (insert_appends obj db) as (row & E & A & P & F).
    unfold bind. rewrite E. cbn [ret fst snd]. split; [reflexivity|].
    exists [row]. cbv zeta. split; [exact A|].
    destruct A as (_ & R & _). unfold ids_unique, pairs_unique. rewrite R.
    split; [intros r [<-|[]]; exact P|].
    split; [rewrite map_app, in_app_iff; right; left; exact P|].
    split.
    + intros D. now apply NoDup_map_snoc.
    + intros -> D. simpl in C. apply NoDup_map_snoc; [exact D|].
      rewrite P, <- existsb_holds. congruence.
Qed.

Lemma bulk_create_spec (objs : list IngredientAmount) (db : Database) :
  outcome (bulk_create unique_together objs) db = Ok tt
  /\ exists new,
      let db' := exec (bulk_create unique_together objs) db in
      appends_rows db db' new
      /\ (forall row, In row new -> In (pair_of row) objs)
      /\ (forall obj, In obj objs -> In obj (map pair_of (ingredientinrecipe_rows db')))
      /\ (ids_unique db -> ids_unique db')
      /\ (unique_together = true -> pairs_unique db -> pairs_unique db').
Proof.
  unfold bulk_create. revert db. induction objs as [|obj objs IH]; intros db.
  - split; [reflexivity|]. exists []. cbv zeta.
    split; [apply appends_rows_refl|]. repeat split; auto; intros ? [].
  - destruct (insert_ignore_conflicts_spec obj db) as (O & n1 & A1 & P1 & I1 & U1 & Q1).
    cbv zeta in A1, I1, U1, Q1.
    destruct (IH (exec (insert_ignore_conflicts unique_together obj) db))
      as (O' & n2 & A2 & P2 & I2 & U2 & Q2).
    cbv zeta in A2, I2, U2, Q2.
    cbn [for_each]. rewrite outcome_bind, exec_bind, O. split; [exact O'|].
    exists (n1 ++ n2)%list. cbv zeta.
    split; [eapply appends_rows_trans; eauto|].
    split; [|split; [|split]].
    + intros row I. apply in_app_iff in I. destruct I as [I|I].
      * left. symmetry. now apply P1.
      * right. now apply P2.
    + intros kw [<-|I]; [|now apply I2].
      destruct A2 as (_ & R & _). rewrite R, map_app, in_app_iff. now left.
    + auto.
    + auto.
Qed.

End BulkCreate.

Lemma filter_holds_unique (kw : IngredientAmount) (rows : list IngredientInRecipe)
  (x y : IngredientInRecipe) (rest : list IngredientInRecipe) :
  NoDup (map pair_of rows) -> filter (holds kw) rows <> x :: y :: rest.
Proof.
  intros D E.
  assert (Ix : In x (filter (holds kw) rows)) by (rewrite E; now left).
  assert (Iy : In y (filter (holds kw) rows)) by (rewrite E; right; now left).
  assert (N : NoDup (map pair_of (filter (holds kw) rows))).
  { clear E Ix Iy. induction rows as [|r rows IH]; simpl; [constructor|].
    inversion D as [|? ? N D']; subst.
    destruct (holds kw r); [|auto]. simpl. constructor; [|auto].
    intros I. apply N. apply in_map_iff in I. destruct I as (z & Ez & Iz).
    apply filter_In in Iz. rewrite <- Ez. apply in_map. tauto. }
  apply filter_In in Ix, Iy. destruct Ix as [_ Hx], Iy as [_ Hy].
  apply holds_pair in Hx, Hy. rewrite E in N. simpl in N.
  inversion N as [|? ? N1 _]; subst. apply N1. left. congruence.
Qed.

Lemma get_or_create_spec (kw : IngredientAmount) (db : Database) :
  pairs_unique db ->
  exists row created new,
    let db' := exec (get_or_create kw) db in
    outcome (get_or_create kw) db = Ok (row, created)
    /\ appends_rows db db' new
    /\ (forall r, In r new -> r = row)
    /\ In row (ingredientinrecipe_rows db')
    /\ pair_of row = kw
    /\ (ids_unique db -> ids_unique db')
    /\ pairs_unique db'.
Proof.
  intros D. unfold outcome, exec, get_or_create.
  destruct (filter (holds kw) (ingredientinrecipe_rows db)) as [|x [|y rest]] eqn:F.
  - destruct (insert_appends kw db) as (row & E & A & P & N).
    unfold bind. rewrite E. cbn [ret fst snd].
    exists row, true, [row]. cbv zeta. split; [reflexivity|]. split; [exact A|].
    destruct A as (_ & R & _). unfold ids_unique, pairs_unique. rewrite R.
    split; [intros r [<-|[]]; reflexivity|].
    split; [apply in_app_iff; right; now left|].
    split; [exact P|]. split.
    + intros U. now apply NoDup_map_snoc.
    + apply NoDup_map_snoc; [exact D|]. rewrite P. intros I.
      apply in_map_iff in I. destruct I as (z & Ez & Iz).
      assert (Z : In z (filter (holds kw) (ingredientinrecipe_rows db))).
      { apply filter_In. split; [exact Iz|now apply holds_pair]. }
      rewrite F in Z. destruct Z.
  - exists x, false, []. cbv zeta. simpl. split; [reflexivity|].
    split; [apply appends_rows_refl|].
    assert (I : In x (filter (holds kw) (ingredientinrecipe_rows db))) by (rewrite F; now left).
    apply filter_In in I. destruct I as [I H]. apply holds_pair in H.
    repeat split; auto. intros r [].
  - exfalso. now apply (filter_holds_unique _ _ _ _ _ D F).
Qed.

Lemma outside_inv (rel : Relation) (db db' : Database) :
  outside rel db' = outside rel db ->
  recipe_rows db' = recipe_rows db
  /\ ingredientinrecipe_rows db' = ingredientinrecipe_rows db
  /\ through_rows db' rel = through_rows db rel.
Proof. unfold outside. intros E. injection E. auto. Qed.

Lemma beside_rows_inv (db db' : Database) :
  beside_rows db' = beside_rows db ->
  recipe_rows db' = recipe_rows db /\ through_rows db' = through_rows db.
Proof. unfold beside_rows. intros E. injection E. auto. Qed.

(** ** [update] *)

Section UpdateLoop.

Variable recipe : nat.

(** The body of the loop of [update]. *)
Let body (ingredient' : IngredientAmount) : ORM unit :=
  created <- get_or_create ingredient' ;;
  m2m_add Ingredients recipe (iir_id (fst created)).

Lemma update_body_spec (kw : IngredientAmount) (db : Database) :
  pairs_unique db ->
  outcome (body kw) db = Ok tt
  /\ exists row new,
      let db' := exec (body kw) db in
      ingredientinrecipe_rows db' = (ingredientinrecipe_rows db ++ new)%list
      /\ recipe_rows db' = recipe_rows db
      /\ through_rows db' Tags = through_rows db Tags
      /\ (forall r, In r new -> r = row)
      /\ In row (ingredientinrecipe_rows db')
      /\ pair_of row = kw
      /\ (ids_unique db -> ids_unique db')
      /\ pairs_unique db'
      /\ (forall r i, In (r, i) (through_rows db' Ingredients)
                      <-> In (r, i) (through_rows db Ingredients)
                          \/ (r = recipe /\ i = iir_id row)).
Proof.
  intros D.
  destruct (get_or_create_spec kw db D) as (row & created & new & O & A & N & I & P & U & Q).
  cbv zeta in *. unfold body. rewrite outcome_bind, exec_bind, O. cbn [fst].
  split; [apply m2m_add_ok|]. exists row, new. cbv zeta.
  set (db1 := exec (get_or_create kw) db) in *.
  destruct (outside_inv Tags _ _
              (m2m_add_outside Ingredients Tags recipe (iir_id row) db1 eq_refl))
    as (E1 & E2 & E3).
  destruct A as (B & R & _). apply beside_rows_inv in B. destruct B as [B1 B2].
  unfold ids_unique, pairs_unique in *. rewrite E1, E2, E3, B1, B2.
  do 8 (split; [solve [auto]|]).
  intros r i. rewrite m2m_add_links, B2. reflexivity.
Qed.

Lemma update_loop_spec (kws : list IngredientAmount) (db : Database) :
  pairs_unique db ->
  outcome (for_each kws body) db = Ok tt
  /\ exists new,
      let db' := exec (for_each kws body) db in
      ingredientinrecipe_rows db' = (ingredientinrecipe_rows db ++ new)%list
      /\ recipe_rows db' = recipe_rows db
      /\ through_rows db' Tags = through_rows db Tags
      /\ (forall row, In row new -> In (pair_of row) kws)
      /\ (forall kw, In kw kws -> In kw (map pair_of (ingredientinrecipe_rows db')))
      /\ (ids_unique db -> ids_unique db')
      /\ pairs_unique db'
      /\ (forall r i, In (r, i) (through_rows db' Ingredients)
                      <-> In (r, i) (through_rows db Ingredients)
                          \/ (r = recipe
                              /\ exists row, In row (ingredientinrecipe_rows db')
                                             /\ iir_id row = i
                                             /\ In (pair_of row) kws)).
Proof.
  revert db. induction kws as [|kw kws IH]; intros db D.
  - split; [reflexivity|]. exists []. cbv zeta. simpl. rewrite app_nil_r.
    do 7 (split; [solve [auto | intros ? []]|]).
    intros r i. split; [auto|]. intros [I|(_ & row & _ & _ & [])]. exact I.
  - destruct (update_body_spec kw db D)
      as (O & row & n1 & R1 & C1 & T1 & N1 & I1 & P1 & U1 & Q1 & L1).
    cbv zeta in *. set (db1 := exec (body kw) db) in *.
    destruct (IH db1 Q1) as (O' & n2 & R2 & C2 & T2 & N2 & I2 & U2 & Q2 & L2).
    cbv zeta in *. cbn [for_each]. rewrite outcome_bind, exec_bind, O.
    split; [exact O'|]. exists (n1 ++ n2)%list. cbv zeta. fold db1.
    set (db2 := exec (for_each kws body) db1) in *.
    assert (Irow : In row (ingredientinrecipe_rows db2)).
    { rewrite R2. apply in_app_iff. now left. }
    split; [now rewrite R2, R1, app_assoc|].
    split; [congruence|]. split; [congruence|].
    split.
    { intros r I. apply in_app_iff in I. destruct I as [I|I].
      - left. apply N1 in I. subst r. now symmetry.
      - right. now apply N2. }
    split.
    { intros k [<-|I]; [|now apply I2]. rewrite <- P1. now apply in_map. }
    split; [auto|]. split; [exact Q2|].
    intros r i. rewrite L2, L1. split.
    + intros [[I|[-> ->]]|(-> & x & Ix & <- & Px)]; auto.
      * right. split; [reflexivity|]. exists row. repeat split; auto. now left.
      * right. split; [reflexivity|]. exists x. repeat split; auto. now right.
    + intros [I|(-> & x & Ix & <- & [Px|Px])]; auto.
      * left. right. split; [reflexivity|]. f_equal.
        apply (NoDup_map_inj pair_of _ _ _ Q2 Ix Irow). congruence.
      * right. split; [reflexivity|]. exists x. auto.
Qed.

End UpdateLoop.

Lemma bind_ok {A B : Type} (m : ORM A) (k : A -> ORM B) (db : Database) (a : A) :
  outcome m db = Ok a -> bind m k db = k a (exec m db).
Proof. unfold outcome, exec, bind. destruct (m db) as [r db']. simpl. now intros ->. Qed.

Lemma add_tags_ok (instance : Recipe) (tags : list nat) (db : Database) :
  outcome (add_tags_to_instance instance tags) db = Ok tt.
Proof. apply for_each_ok. intros. apply m2m_add_ok. Qed.

Lemma recipe_ingredients_In (recipe : nat) (db : Database) (row : IngredientInRecipe) :
  In row (recipe_ingredients recipe db)
  <-> In row (ingredientinrecipe_rows db)
      /\ In (recipe, iir_id row) (through_rows db Ingredients).
Proof. unfold recipe_ingredients. now rewrite filter_In, mem_In, related_In. Qed.

(** The states [update] goes through when the join table holds each
    (ingredient, amount) at most once. *)
Lemma update_run (instance : Recipe) (validated_data : ValidatedData) (db : Database) :
  pairs_unique db ->
  let recipe := recipe_id instance in
  let d1 := exec (m2m_clear Tags recipe) db in
  let d2 := exec (add_tags_to_instance instance (vd_tags validated_data)) d1 in
  let d3 := exec (m2m_clear Ingredients recipe) d2 in
  let d4 := exec (for_each (vd_ingredients validated_data)
                    (fun kw => created <- get_or_create kw ;;
                               m2m_add Ingredients recipe (iir_id (fst created)))) d3 in
  ingredientinrecipe_rows d3 = ingredientinrecipe_rows db
  /\ update instance validated_data db = Recipe_save instance (popped validated_data) d4.
Proof.
  intros D recipe d1 d2 d3 d4.
  assert (R : ingredientinrecipe_rows d3 = ingredientinrecipe_rows db).
  { destruct (outside_inv _ _ _ (m2m_clear_outside Tags Ingredients recipe db eq_refl))
      as (_ & E1 & _).
    destruct (outside_inv _ _ _
                (add_all_outside Tags Ingredients recipe (vd_tags validated_data) d1 eq_refl))
      as (_ & E2 & _).
    destruct (outside_inv _ _ _ (m2m_clear_outside Ingredients Tags recipe d2 eq_refl))
      as (_ & E3 & _).
    etransitivity; [exact E3|]. etransitivity; [exact E2|]. exact E1. }
  split; [exact R|].
  unfold update. cbv zeta.
  rewrite (bind_ok _ _ _ tt (m2m_clear_ok Tags _ db)). fold recipe d1.
  rewrite (bind_ok _ _ _ tt (add_tags_ok instance _ d1)). fold d2.
  rewrite (bind_ok _ _ _ tt (m2m_clear_ok Ingredients _ d2)). fold d3.
  assert (D3 : pairs_unique d3) by (unfold pairs_unique; now rewrite R).
  destruct (update_loop_spec recipe (vd_ingredients validated_data) d3 D3) as [O _].
  rewrite (bind_ok _ _ _ tt O). reflexivity.
Qed.

(** C2.  On a join table with unique keys and at most one row per
    (ingredient, amount), [update] returns, and afterwards the recipe's tags
    are exactly the tags of the payload and its join rows hold exactly the
    (ingredient, amount) pairs of the payload, whatever was related to the
    recipe before. *)
Theorem update_replaces_associations
  (instance : Recipe) (validated_data : ValidatedData) (db : Database) :
  ids_unique db -> pairs_unique db ->
  exists (r : Recipe) (db' : Database),
    update instance validated_data db = (Ok r, db')
    /\ (forall tag, In tag (related Tags (recipe_id instance) db')
                    <-> In tag (vd_tags validated_data))
    /\ (forall kw, In kw (map pair_of (recipe_ingredients (recipe_id instance) db'))
                   <-> In kw (vd_ingredients validated_data)).
Proof.
  intros U D.
  destruct (update_run instance validated_data db D) as [R E]. cbv zeta in R, E.
  set (recipe := recipe_id instance) in *.
  set (d1 := exec (m2m_clear Tags recipe) db) in *.
  set (d2 := exec (add_tags_to_instance instance (vd_tags validated_data)) d1) in *.
  set (d3 := exec (m2m_clear Ingredients recipe) d2) in *.
  assert (D3 : pairs_unique d3) by (unfold pairs_unique; now rewrite R).
  assert (U3 : ids_unique d3) by (unfold ids_unique; now rewrite R).
  destruct (update_loop_spec recipe (vd_ingredients validated_data) d3 D3)
    as (_ & new & R4 & _ & T4 & _ & I4 & U4 & Q4 & L4).
  cbv zeta in R4, T4, I4, U4, Q4, L4.
  set (d4 := exec (for_each (vd_ingredients validated_data) _) d3) in *.
  specialize (U4 U3).
  eexists. eexists. split; [rewrite E; reflexivity|]. split.
  - intros tag. rewrite related_In. cbn [through_rows record set_recipe_rows].
    rewrite T4.
    assert (T3 : through_rows d3 Tags = through_rows d2 Tags)
      by apply (outside_inv _ _ _ (m2m_clear_outside Ingredients Tags recipe d2 eq_refl)).
    rewrite T3. unfold d2, add_tags_to_instance. fold recipe.
    rewrite add_all_links. unfold d1. rewrite m2m_clear_links.
    split; [intros [[_ N]|[_ I]]; [congruence|exact I]|auto].
  - intros kw. rewrite in_map_iff. split.
    + intros (row & <- & I). apply recipe_ingredients_In in I.
      cbn [ingredientinrecipe_rows through_rows record set_recipe_rows] in I.
      destruct I as [I L]. apply L4 in L. destruct L as [L|(_ & x & Ix & Ex & Px)].
      * unfold d3 in L. apply m2m_clear_links in L. destruct L as [_ N]. congruence.
      * rewrite <- (NoDup_map_inj iir_id _ _ _ U4 Ix I Ex). exact Px.
    + intros I. pose proof (I4 kw I) as J. apply in_map_iff in J.
      destruct J as (row & <- & J). exists row. split; [reflexivity|].
      apply recipe_ingredients_In.
      cbn [ingredientinrecipe_rows through_rows record set_recipe_rows].
      split; [exact J|]. apply L4. right. split; [reflexivity|]. exists row. auto.
Qed.

(** ** [create] *)

Lemma map_eta_kw (l : list IngredientAmount) :
  map (fun kw => mkIngredientAmount (ingredient kw) (amount kw)) l = l.
Proof. induction l as [|[i a] l IH]; simpl; congruence. Qed.

Section Create.

Variable unique_together : bool.
Variable validated_data : ValidatedData.
Variable db : Database.

Let kws := vd_ingredients validated_data.
Let r := mkRecipe (next_id (map recipe_id (recipe_rows db)))
                  (vd_name validated_data) (vd_author validated_data)
                  (vd_image validated_data) (vd_text validated_data)
                  (vd_cooking_time validated_data).
Let d1 := record [InsertRecipe r] (set_recipe_rows (recipe_rows db ++ [r])%list db).
Let d2 := exec (bulk_create unique_together kws) d1.
Let queryset :=
  filter (fun row => mem (iir_ingredient row) (map ingredient kws)
                     && mem (iir_amount row) (map amount kws))
         (ingredientinrecipe_rows d2).
Let d3 := exec (m2m_set Ingredients (recipe_id r) (map iir_id queryset)) d2.
Let d4 := exec (add_tags_to_instance r (vd_tags validated_data)) d3.

(** The states [create] goes through; it always returns. *)
Lemma create_run : create unique_together validated_data db = (Ok r, d4).
Proof.
  unfold create. cbv zeta. rewrite map_eta_kw. fold kws.
  rewrite (bind_ok (Recipe_objects_create (popped validated_data)) _ db r eq_refl).
  change (exec (Recipe_objects_create (popped validated_data)) db) with d1.
  rewrite (bind_ok _ _ d1 tt (proj1 (bulk_create_spec unique_together kws d1))).
  fold d2.
  rewrite (bind_ok (IngredientInRecipe_objects_filter (map ingredient kws) (map amount kws))
             _ d2 queryset eq_refl).
  change (exec (IngredientInRecipe_objects_filter (map ingredient kws) (map amount kws)) d2)
    with d2.
  rewrite (bind_ok _ _ d2 tt (m2m_set_ok _ _ _ d2)). fold d3.
  rewrite (bind_ok _ _ d3 tt (add_tags_ok r _ d3)). reflexivity.
Qed.

Lemma create_tables :
  exists new,
    recipe_rows d4 = (recipe_rows db ++ [r])%list
    /\ ingredientinrecipe_rows d4 = (ingredientinrecipe_rows db ++ new)%list
    /\ (forall row, In row new -> In (pair_of row) kws)
    /\ (forall kw, In kw kws -> In kw (map pair_of (ingredientinrecipe_rows d4)))
    /\ (ids_unique db -> ids_unique d4)
    /\ (unique_together = true -> pairs_unique db -> pairs_unique d4)
    /\ (forall i, In (recipe_id r, i) (through_rows d4 Ingredients)
                  <-> In i (map iir_id queryset))
    /\ ingredientinrecipe_rows d2 = ingredientinrecipe_rows d4.
Proof.
  destruct (bulk_create_spec unique_together kws d1)
    as (_ & new & (B & R & _) & P & I & U & Q).
  cbv zeta in B, R, I, U, Q. fold d2 in B, R, I, U, Q.
  apply beside_rows_inv in B. destruct B as [B _].
  destruct (outside_inv _ _ _
              (m2m_set_outside Ingredients Tags (recipe_id r) (map iir_id queryset)
                 d2 eq_refl)) as (C3 & R3 & _).
  fold d3 in C3, R3.
  destruct (outside_inv _ _ _
              (add_all_outside Tags Ingredients (recipe_id r)
                 (vd_tags validated_data) d3 eq_refl)) as (C4 & R4 & T4).
  change (exec (for_each (vd_tags validated_data) (m2m_add Tags (recipe_id r))) d3)
    with d4 in C4, R4, T4.
  exists new. unfold ids_unique, pairs_unique in *.
  rewrite C4, C3, B, R4, R3, T4. cbn [recipe_rows d1 record set_recipe_rows].
  do 6 (split; [solve [auto]|]). split; [|reflexivity].
  intros i. unfold d3. rewrite m2m_set_links. split.
  - intros [[N _]|[_ I']]; [congruence|exact I'].
  - auto.
Qed.

Lemma create_journal :
  exists new ws_i ws_t,
    ingredientinrecipe_rows d4 = (ingredientinrecipe_rows db ++ new)%list
    /\ journal d4
       = (journal db ++ InsertRecipe r :: map InsertIngredientInRecipe new
            ++ ws_i ++ ws_t)%list
    /\ Forall (writes_link Ingredients (recipe_id r)) ws_i
    /\ Forall (fun w => exists tag, In tag (vd_tags validated_data)
                                    /\ w = InsertLink Tags (recipe_id r) tag) ws_t.
Proof.
  destruct (bulk_create_spec unique_together kws d1) as (_ & new & (_ & R & J) & _).
  cbv zeta in R, J. fold d2 in R, J.
  destruct (m2m_set_journal Ingredients (recipe_id r) (map iir_id queryset) d2)
    as (ws_i & J3 & F3). fold d3 in J3.
  destruct (add_all_journal Tags (recipe_id r) (vd_tags validated_data) d3)
    as (ws_t & J4 & F4).
  change (exec (for_each (vd_tags validated_data) (m2m_add Tags (recipe_id r))) d3)
    with d4 in J4.
  destruct create_tables as (new' & _ & R' & _ & _ & _ & _ & _ & R2).
  exists new, ws_i, ws_t. split; [now rewrite <- R2, R|].
  split; [|auto].
  rewrite J4, J3, J. cbn [journal d1 record set_recipe_rows].
  rewrite <- !app_assoc. reflexivity.
Qed.

End Create.

Lemma NoDup_app_disjoint {A : Type} (l l' : list A) (a : A) :
  NoDup (l ++ l') -> In a l -> In a l' -> False.
Proof.
  induction l as [|x l IH]; simpl; intros D I I'; [destruct I|].
  inversion D as [|? ? N D']; subst. destruct I as [->|I]; [|eauto].
  apply N, in_app_iff. now right.
Qed.

(** The shape of an upsert, from what the two write paths establish. *)
Lemma upserted_intro (kws : list IngredientAmount) (recipe : nat)
  (db db' : Database) (new : list IngredientInRecipe) :
  ingredientinrecipe_rows db' = (ingredientinrecipe_rows db ++ new)%list ->
  (forall row, In row new -> In (pair_of row) kws) ->
  pairs_unique db' ->
  (forall kw, In kw kws -> In kw (map pair_of (ingredientinrecipe_rows db'))) ->
  (forall row, In row (ingredientinrecipe_rows db') -> In (pair_of row) kws ->
               In (recipe, iir_id row) (through_rows db' Ingredients)) ->
  upserted kws recipe db db'.
Proof.
  intros R P Q I L. exists new. split; [exact R|]. split; [|split; [exact Q|]].
  - intros row Irow. split; [now apply P|]. intros Iold.
    unfold pairs_unique in Q. rewrite R, map_app in Q.
    apply (NoDup_app_disjoint _ _ _ Q Iold). now apply in_map.
  - intros kw Ikw. pose proof (I kw Ikw) as J. apply in_map_iff in J.
    destruct J as (row & E & J). exists row.
    split; [apply recipe_ingredients_In; split; [exact J|apply L; [exact J|congruence]]|].
    split; [exact E|]. split.
    + intros row' J' E'. apply (NoDup_map_inj pair_of _ _ _ Q J' J). congruence.
    + intros old J' E'. apply (NoDup_map_inj pair_of _ _ _ Q); [|exact J|congruence].
      rewrite R. apply in_app_iff. now left.
Qed.

(** What [create] relates to the new recipe: every join row whose ingredient
    is among the payload's ingredients and whose amount is among the
    payload's amounts. *)
Lemma create_relates_cross_product
  (unique_together : bool) (validated_data : ValidatedData) (db : Database) :
  ids_unique db ->
  exists r db',
    create unique_together validated_data db = (Ok r, db')
    /\ forall row,
        In row (recipe_ingredients (recipe_id r) db')
        <-> In row (ingredientinrecipe_rows db')
            /\ In (iir_ingredient row) (map ingredient (vd_ingredients validated_data))
            /\ In (iir_amount row) (map amount (vd_ingredients validated_data)).
Proof.
  intros U. pose proof (create_run unique_together validated_data db) as E.
  destruct (create_tables unique_together validated_data db)
    as (new & _ & _ & _ & _ & U4 & _ & L & R2).
  cbv zeta in E, U4, L, R2. eexists. eexists. split; [exact E|].
  intros row. rewrite recipe_ingredients_In, L, in_map_iff. split.
  - intros (I & x & Ex & Ix). apply filter_In in Ix. destruct Ix as [Ix Hx].
    rewrite R2 in Ix.
    pose proof (NoDup_map_inj iir_id _ _ _ (U4 U) Ix I Ex) as <-.
    apply andb_true_iff in Hx. rewrite !mem_In in Hx. tauto.
  - intros (I & Hi & Ha). split; [exact I|]. exists row. split; [reflexivity|].
    apply filter_In. rewrite R2. split; [exact I|].
    apply andb_true_iff. now rewrite !mem_In.
Qed.

(** *** The writes of [create], one by one *)

Section OwnWrites.

Variables (rel : Relation) (recipe : nat).




End OwnWrites.

Section CreateWrites.

Variable unique_together : bool.
Variable validated_data : ValidatedData.
Variable db : Database.

Let kws := vd_ingredients validated_data.
Let r := mkRecipe (next_id (map recipe_id (recipe_rows db)))
                  (vd_name validated_data) (vd_author validated_data)
                  (vd_image validated_data) (vd_text validated_data)
                  (vd_cooking_time validated_data).
Let d1 := record [InsertRecipe r] (set_recipe_rows (recipe_rows db ++ [r])%list db).
Let d2 := exec (bulk_create unique_together kws) d1.
Let queryset :=
  filter (fun row => mem (iir_ingredient row) (map ingredient kws)
                     && mem (iir_amount row) (map amount kws))
         (ingredientinrecipe_rows d2).
Let d3 := exec (m2m_set Ingredients (recipe_id r) (map iir_id queryset)) d2.
Let d4 := exec (add_tags_to_instance r (vd_tags validated_data)) d3.


End CreateWrites.


(** C5.  On a join table that holds each (ingredient, amount) at most once,
    [create] (the pair declared unique together) and [update] return and
    upsert the payload's pairs: a pair that has a row keeps it and gets no
    second one, a row is inserted only for a pair of the payload that had
    none, and the pair's one row is related to the recipe. *)
Theorem join_rows_are_upserted
  (instance : Recipe) (validated_data : ValidatedData) (db : Database) :
  pairs_unique db ->
  (exists r db',
      create true validated_data db = (Ok r, db')
      /\ upserted (vd_ingredients validated_data) (recipe_id r) db db')
  /\ (exists r db',
         update instance validated_data db = (Ok r, db')
         /\ upserted (vd_ingredients validated_data) (recipe_id instance) db db').
Proof.
  intros D. split.
  - pose proof (create_run true validated_data db) as E.
    destruct (create_tables true validated_data db)
      as (new & _ & R & P & I & _ & Q & L & R2).
    cbv zeta in E, R, P, I, Q, L, R2. eexists. eexists. split; [exact E|].
    apply (upserted_intro _ _ _ _ new R P (Q eq_refl D) I).
    intros row Irow Prow. apply L. apply in_map, filter_In.
    rewrite R2. split; [exact Irow|].
    apply andb_true_iff. rewrite !mem_In. split.
    + change (iir_ingredient row) with (ingredient (pair_of row)). now apply in_map.
    + change (iir_amount row) with (amount (pair_of row)). now apply in_map.
  - destruct (update_run instance validated_data db D) as [R E]. cbv zeta in R, E.
    set (recipe := recipe_id instance) in *.
    set (d3 := exec (m2m_clear Ingredients recipe) _) in *.
    assert (D3 : pairs_unique d3) by (unfold pairs_unique; now rewrite R).
    destruct (update_loop_spec recipe (vd_ingredients validated_data) d3 D3)
      as (_ & new & R4 & _ & _ & P4 & I4 & _ & Q4 & L4).
    cbv zeta in R4, P4, I4, Q4, L4. rewrite R in R4.
    eexists. eexists. split; [rewrite E; reflexivity|].
    apply (upserted_intro _ _ _ _ new); auto.
    intros row Irow Prow.
    cbn [ingredientinrecipe_rows through_rows record set_recipe_rows] in *.
    apply L4. right. split; [reflexivity|]. exists row. auto.
Qed.

(** ** The validation pipeline *)

Lemma validate_returns_data (data validated : Attrs) :
  validate data = Ok validated -> validated = data.
Proof.
  unfold validate, check_for_dublicates.
  destruct (has_dublicates _); [discriminate|].
  destruct (has_dublicates _); [discriminate|]. congruence.
Qed.

Lemma same_name_filter (name : string) (author : nat) (rows : list Recipe) :
  filter (fun r => String.eqb (recipe_name r) name && (recipe_author r =? author)) rows = []
  <-> ~ In (name, author) (map (fun r => (recipe_name r, recipe_author r)) rows).
Proof.
  split.
  - intros F I. apply in_map_iff in I. destruct I as (r & E & I). injection E as En Ea.
    assert (Z : In r (filter (fun r => String.eqb (recipe_name r) name
                                       && (recipe_author r =? author)) rows)).
    { apply filter_In. split; [exact I|]. apply andb_true_iff.
      split; [now apply String.eqb_eq|now apply Nat.eqb_eq]. }
    rewrite F in Z. destruct Z.
  - intros N. destruct (filter _ rows) as [|r rest] eqn:F; [reflexivity|].
    exfalso. apply N.
    assert (Z : In r (filter (fun r => String.eqb (recipe_name r) name
                                       && (recipe_author r =? author)) rows))
      by (rewrite F; now left).
    apply filter_In in Z. destruct Z as [I H]. apply andb_true_iff in H.
    destruct H as [Hn Ha]. apply String.eqb_eq in Hn. apply Nat.eqb_eq in Ha.
    apply in_map_iff. exists r. split; [congruence|exact I].
Qed.

Section CreateRequest.

Variable b64decode : string -> Result (list byte).
Variable super_to_internal_value : RequestData -> Result Attrs.
Variable unique_together : bool.
Variables (request_user : nat) (uuid : string) (data : RequestData).

(** What a create request does, by the result of the conversion and the
    stored recipes of this name and author. *)
Lemma create_request_cases (db : Database) :
  create_request b64decode super_to_internal_value unique_together
                 request_user uuid data db =
  match to_internal_value b64decode super_to_internal_value uuid data with
  | Raise e => (Raise e, db)
  | Ok value =>
      match filter (fun r => String.eqb (recipe_name r) (attrs_name value)
                             && (recipe_author r =? request_user))
                   (recipe_rows db) with
      | _ :: _ => (Raise (ValidationError unique_message), db)
      | [] =>
          match validate value with
          | Raise e => (Raise e, db)
          | Ok _ => create unique_together (with_author request_user value) db
          end
      end
  end.
Proof.
  unfold create_request, run_validation, bind, lift, raise, unique_together_validator.
  destruct (to_internal_value _ _ _ _) as [value|e]; [|reflexivity].
  destruct (filter _ (recipe_rows db)); [|reflexivity].
  destruct (validate value) as [validated|e] eqn:V; [|reflexivity].
  now rewrite (validate_returns_data _ _ V).
Qed.

(** C7.  A create request whose converted data have the name of a recipe
    stored for the requesting user is refused with the validator's message
    and leaves the database as it was; a request that succeeds appends one
    recipe, of the requesting user, and keeps (name, author) unique among
    the stored recipes. *)
Theorem create_request_keeps_names_unique (db : Database) :
  (forall value,
      to_internal_value b64decode super_to_internal_value uuid data = Ok value ->
      (exists stored, In stored (recipe_rows db)
                      /\ recipe_name stored = attrs_name value
                      /\ recipe_author stored = request_user) ->
      create_request b64decode super_to_internal_value unique_together
                     request_user uuid data db
      = (Raise (ValidationError unique_message), db))
  /\ (forall r db',
         names_unique db ->
         create_request b64decode super_to_internal_value unique_together
                        request_user uuid data db = (Ok r, db') ->
         names_unique db'
         /\ recipe_rows db' = (recipe_rows db ++ [r])%list
         /\ recipe_author r = request_user).
Proof.
  rewrite (create_request_cases db).
  split.
  - intros value -> (stored & I & En & Ea).
    destruct (filter _ (recipe_rows db)) eqn:F; [|reflexivity].
    exfalso. apply same_name_filter in F. apply F.
    apply in_map_iff. exists stored. split; [congruence|exact I].
  - intros r db' N.
    destruct (to_internal_value _ _ _ _) as [value|e0]; [|discriminate].
    destruct (filter _ (recipe_rows db)) eqn:F; [|discriminate].
    destruct (validate value); [|discriminate].
    pose proof (create_run unique_together (with_author request_user value) db) as R.
    destruct (create_tables unique_together (with_author request_user value) db)
      as (new & C & _).
    cbv zeta in R, C.
    match type of R with _ = (Ok ?r0, _) => set (r' := r0) in * end.
    match type of R with _ = (_, ?d) => set (d' := d) in * end.
    rewrite R. intros E. injection E as <- <-.
    split; [|split; [exact C|reflexivity]].
    unfold names_unique. rewrite C. apply NoDup_map_snoc; [exact N|].
    apply same_name_filter in F. exact F.
Qed.

End CreateRequest.

(** ** Samples *)

(** C1, at a failing input.  A recipe with the pair (1, 2) is stored; a
    validated request with the pairs (1, 1) and (2, 2) is created.  The new
    recipe is related to the row of (1, 2) as well, a pair the request did
    not supply: its ingredient is among the request's ingredients and its
    amount among the request's amounts. *)
Theorem create_relates_unsupplied_pair (unique_together : bool) :
  NoDup (map ingredient (vd_ingredients soup))
  /\ NoDup (vd_tags soup)
  /\ validate (mkAttrs (vd_tags soup) (vd_ingredients soup) "Soup" sample_image "Boil." 60)
     = Ok (mkAttrs (vd_tags soup) (vd_ingredients soup) "Soup" sample_image "Boil." 60)
  /\ map pair_of (ingredientinrecipe_rows (after_tea unique_together))
     = [mkIngredientAmount 1 2]
  /\ outcome (create unique_together soup) (after_tea unique_together)
     = Ok (mkRecipe 2 "Soup" 7 sample_image "Boil." 60)
  /\ map pair_of
       (recipe_ingredients 2
          (exec (create unique_together soup) (after_tea unique_together)))
     = [mkIngredientAmount 1 2; mkIngredientAmount 1 1; mkIngredientAmount 2 2]
  /\ ~ In (mkIngredientAmount 1 2) (vd_ingredients soup).
Proof.
  split; [simpl; nodup|]. split; [simpl; nodup|].
  split; [reflexivity|].
  destruct unique_together; (split; [reflexivity|]); (split; [reflexivity|]);
    (split; [reflexivity|]); simpl; intuition discriminate.
Qed.

(** The recipe of [tea], related to the tags 1 and 2 and to the row of
    (1, 2), is updated with [stew]: the tag 3, the pairs (1, 2) and (5, 5). *)
Lemma update_replaces_associations_witness :
  exists (r : Recipe) (db' : Database),
    update tea_recipe stew after_soup = (Ok r, db')
    /\ (forall tag, In tag (related Tags (recipe_id tea_recipe) db')
                    <-> In tag (vd_tags stew))
    /\ (forall kw, In kw (map pair_of (recipe_ingredients (recipe_id tea_recipe) db'))
                   <-> In kw (vd_ingredients stew)).
Proof.
  apply (update_replaces_associations tea_recipe stew after_soup).
  - unfold ids_unique. vm_compute. nodup.
  - unfold pairs_unique. vm_compute. nodup.
Defined.

(** [stew] over the rows (1, 2), (1, 1), (2, 2): (1, 2) has its row,
    (5, 5) gets one. *)
Lemma join_rows_are_upserted_witness :
  (exists r db',
      create true stew after_soup = (Ok r, db')
      /\ upserted (vd_ingredients stew) (recipe_id r) after_soup db')
  /\ (exists r db',
         update tea_recipe stew after_soup = (Ok r, db')
         /\ upserted (vd_ingredients stew) (recipe_id tea_recipe) after_soup db').
Proof.
  apply (join_rows_are_upserted tea_recipe stew after_soup).
  unfold pairs_unique. vm_compute. nodup.
Defined.

(** The request that was served is sent again by the same user. *)
Lemma create_request_keeps_names_unique_witness :
  create_request sample_b64decode sample_super true 7 "1a2b"
                 (sample_data "data:image/png;base64,QUJD") after_borscht
  = (Raise (ValidationError unique_message), after_borscht).
Proof.
  apply (proj1 (create_request_keeps_names_unique sample_b64decode sample_super true
                  7 "1a2b" (sample_data "data:image/png;base64,QUJD") after_borscht)
           (mkAttrs [1] [mkIngredientAmount 1 2] "Borscht"
                    (mkContentFile [x41; x42; x43]%byte "1a2b.png") "Boil." 90)).
  - reflexivity.
  - exists (mkRecipe 1 "Borscht" 7 (mkContentFile [x41; x42; x43]%byte "0f8c.png")
                     "Boil." 90).
    split; [now left|]. split; reflexivity.
Defined.

(** Without the uniqueness constraint [create] inserts a second row for a
    pair that has one. *)
Lemma create_without_constraint_duplicates :
  map pair_of (ingredientinrecipe_rows (exec (create false tea) (after_tea false)))
  = [mkIngredientAmount 1 2; mkIngredientAmount 1 2].
Proof. reflexivity. Qed.

(* ================================================================== *)
(** * Further properties of the write paths *)

(** ** What a write path leaves alone *)

Lemma bind_preserves {A B X : Type} (proj : Database -> X)
  (m : ORM A) (k : A -> ORM B) :
  (forall db, proj (exec m db) = proj db) ->
  (forall a db, proj (exec (k a) db) = proj db) ->
  forall db, proj (exec (bind m k) db) = proj db.
Proof.
  intros Hm Hk db. rewrite exec_bind.
  destruct (outcome m db); [rewrite Hk|]; apply Hm.
Qed.

Lemma filter_others_remove (recipe target : nat) (links : list (nat * nat)) :
  filter (fun l => negb (fst l =? recipe))
         (filter (fun l => negb ((fst l =? recipe) && (snd l =? target))) links)
  = filter (fun l => negb (fst l =? recipe)) links.
Proof.
  induction links as [|[r t] links IH]; simpl; [reflexivity|].
  destruct (r =? recipe) eqn:E; simpl.
  - destruct (t =? target); simpl; [exact IH|]. now rewrite E.
  - rewrite E. simpl. now rewrite IH.
Qed.

Section OwnLinks.

Variables (rel rel' : Relation) (recipe : nat).

Lemma m2m_add_others (target : nat) (db : Database) :
  links_of_others rel recipe (exec (m2m_add rel' recipe target) db)
  = links_of_others rel recipe db.
Proof.
  unfold links_of_others, exec, m2m_add. destruct (mem _ _); simpl; [reflexivity|].
  destruct (Relation_eqb rel rel') eqn:E; [|reflexivity].
  destruct rel, rel'; try discriminate;
    rewrite filter_app; simpl; rewrite Nat.eqb_refl; simpl; apply app_nil_r.
Qed.

Lemma m2m_remove_others (target : nat) (db : Database) :
  links_of_others rel recipe (exec (m2m_remove rel' recipe target) db)
  = links_of_others rel recipe db.
Proof.
  unfold links_of_others, exec, m2m_remove. destruct (mem _ _); simpl; [|reflexivity].
  destruct (Relation_eqb rel rel') eqn:E; [|reflexivity].
  destruct rel, rel'; try discriminate; apply filter_others_remove.
Qed.

Lemma m2m_clear_others (db : Database) :
  links_of_others rel recipe (exec (m2m_clear rel' recipe) db)
  = links_of_others rel recipe db.
Proof.
  change (exec (m2m_clear rel' recipe) db)
    with (exec (for_each (related rel' recipe db) (m2m_remove rel' recipe)) db).
  apply for_each_preserves. apply m2m_remove_others.
Qed.

Lemma add_all_others (targets : list nat) (db : Database) :
  links_of_others rel recipe (exec (for_each targets (m2m_add rel' recipe)) db)
  = links_of_others rel recipe db.
Proof. apply for_each_preserves. apply m2m_add_others. Qed.

Lemma m2m_set_others (objs : list nat) (db : Database) :
  links_of_others rel recipe (exec (m2m_set rel' recipe objs) db)
  = links_of_others rel recipe db.
Proof.
  unfold exec at 1. rewrite m2m_set_eq.
  match goal with
  | |- links_of_others _ _ (snd (bind ?m ?k db)) = _ =>
      change (snd (bind m k db)) with (exec (bind m k) db)
  end.
  apply bind_preserves.
  - intros. apply for_each_preserves. apply m2m_remove_others.
  - intros. apply add_all_others.
Qed.

End OwnLinks.

Lemma get_or_create_through (kw : IngredientAmount) (db : Database) :
  through_rows (exec (get_or_create kw) db) = through_rows db
  /\ recipe_rows (exec (get_or_create kw) db) = recipe_rows db
  /\ choices (exec (get_or_create kw) db) = choices db.
Proof.
  unfold exec, get_or_create.
  destruct (filter (holds kw) (ingredientinrecipe_rows db)) as [|x [|y rest]];
    repeat split; reflexivity.
Qed.

Lemma m2m_add_choices (rel : Relation) (recipe target : nat) (db : Database) :
  choices (exec (m2m_add rel recipe target) db) = choices db.
Proof. unfold exec, m2m_add. now destruct (mem _ _). Qed.

Lemma m2m_remove_choices (rel : Relation) (recipe target : nat) (db : Database) :
  choices (exec (m2m_remove rel recipe target) db) = choices db.
Proof. unfold exec, m2m_remove. now destruct (mem _ _). Qed.

Lemma m2m_clear_choices (rel : Relation) (recipe : nat) (db : Database) :
  choices (exec (m2m_clear rel recipe) db) = choices db.
Proof.
  change (exec (m2m_clear rel recipe) db)
    with (exec (for_each (related rel recipe db) (m2m_remove rel recipe)) db).
  apply for_each_preserves. apply m2m_remove_choices.
Qed.

Lemma m2m_set_choices (rel : Relation) (recipe : nat) (objs : list nat)
  (db : Database) :
  choices (exec (m2m_set rel recipe objs) db) = choices db.
Proof.
  unfold exec at 1. rewrite m2m_set_eq.
  match goal with
  | |- choices (snd (bind ?m ?k db)) = _ =>
      change (snd (bind m k db)) with (exec (bind m k) db)
  end.
  apply bind_preserves.
  - intros. apply for_each_preserves. apply m2m_remove_choices.
  - intros. apply for_each_preserves. apply m2m_add_choices.
Qed.

Lemma bulk_create_beside (unique_together : bool) (objs : list IngredientAmount)
  (db : Database) :
  beside_rows (exec (bulk_create unique_together objs) db) = beside_rows db.
Proof.
  destruct (bulk_create_spec unique_together objs db) as (_ & new & (B & _) & _).
  exact B.
Qed.

Lemma links_of_others_through (rel : Relation) (recipe : nat) (db db' : Database) :
  through_rows db' = through_rows db ->
  links_of_others rel recipe db' = links_of_others rel recipe db.
Proof. unfold links_of_others. now intros ->. Qed.

Section CreateFrame.

Variable unique_together : bool.
Variable validated_data : ValidatedData.
Variable db : Database.

Let kws := vd_ingredients validated_data.
Let r := mkRecipe (next_id (map recipe_id (recipe_rows db)))
                  (vd_name validated_data) (vd_author validated_data)
                  (vd_image validated_data) (vd_text validated_data)
                  (vd_cooking_time validated_data).
Let d1 := record [InsertRecipe r] (set_recipe_rows (recipe_rows db ++ [r])%list db).
Let d2 := exec (bulk_create unique_together kws) d1.
Let queryset :=
  filter (fun row => mem (iir_ingredient row) (map ingredient kws)
                     && mem (iir_amount row) (map amount kws))
         (ingredientinrecipe_rows d2).
Let d3 := exec (m2m_set Ingredients (recipe_id r) (map iir_id queryset)) d2.
Let d4 := exec (add_tags_to_instance r (vd_tags validated_data)) d3.

Lemma create_others (rel : Relation) :
  links_of_others rel (recipe_id r) d4 = links_of_others rel (recipe_id r) db.
Proof.
  unfold d4, add_tags_to_instance. rewrite add_all_others.
  unfold d3. rewrite m2m_set_others.
  apply links_of_others_through.
  pose proof (bulk_create_beside unique_together kws d1) as B.
  apply beside_rows_inv in B. destruct B as [_ B]. exact B.
Qed.

Lemma create_choices : choices d4 = choices db.
Proof.
  unfold d4, add_tags_to_instance.
  rewrite (for_each_preserves choices _ _ (m2m_add_choices Tags (recipe_id r))).
  unfold d3. rewrite m2m_set_choices.
  pose proof (bulk_create_beside unique_together kws d1) as B.
  unfold beside_rows in B. injection B as _ _ F C. unfold choices, d2.
  now rewrite F, C.
Qed.

End CreateFrame.

Section UpdateFrame.

Variable instance : Recipe.
Variable validated_data : ValidatedData.

Lemma update_others (rel : Relation) (db : Database) :
  links_of_others rel (recipe_id instance) (exec (update instance validated_data) db)
  = links_of_others rel (recipe_id instance) db.
Proof.
  revert db. unfold update. cbv zeta.
  apply bind_preserves; [intros; apply m2m_clear_others|intros _].
  apply bind_preserves; [intros; apply add_all_others|intros _].
  apply bind_preserves; [intros; apply m2m_clear_others|intros _].
  apply bind_preserves; [|reflexivity].
  intros db. apply for_each_preserves. clear db. intros kw.
  apply bind_preserves; [|intros; apply m2m_add_others].
  intros db. apply links_of_others_through. apply get_or_create_through.
Qed.

Lemma update_choices (db : Database) :
  choices (exec (update instance validated_data) db) = choices db.
Proof.
  revert db. unfold update. cbv zeta.
  apply bind_preserves; [intros; apply m2m_clear_choices|intros _].
  apply bind_preserves;
    [intros; apply for_each_preserves; apply m2m_add_choices|intros _].
  apply bind_preserves; [intros; apply m2m_clear_choices|intros _].
  apply bind_preserves; [|reflexivity].
  intros db. apply for_each_preserves. clear db. intros kw.
  apply bind_preserves; [|intros; apply m2m_add_choices].
  intros db. apply get_or_create_through.
Qed.

End UpdateFrame.

(** X1.  [create] returns for every payload and database.  It appends one
    recipe row, with a key no stored recipe has and the payload's fields,
    and leaves the stored recipe rows as they are; it only appends to the
    join table, rows for pairs of the payload; it leaves the favorites and
    the shopping carts as they are. *)
Theorem create_only_appends
  (unique_together : bool) (validated_data : ValidatedData) (db : Database) :
  exists r db' new,
    create unique_together validated_data db = (Ok r, db')
    /\ r = mkRecipe (next_id (map recipe_id (recipe_rows db)))
                    (vd_name validated_data) (vd_author validated_data)
                    (vd_image validated_data) (vd_text validated_data)
                    (vd_cooking_time validated_data)
    /\ ~ In (recipe_id r) (map recipe_id (recipe_rows db))
    /\ recipe_rows db' = (recipe_rows db ++ [r])%list
    /\ ingredientinrecipe_rows db' = (ingredientinrecipe_rows db ++ new)%list
    /\ (forall row, In row new -> In (pair_of row) (vd_ingredients validated_data))
    /\ choices db' = choices db.
Proof.
  pose proof (create_run unique_together validated_data db) as E.
  destruct (create_tables unique_together validated_data db)
    as (new & C & R & P & _).
  pose proof (create_choices unique_together validated_data db) as F.
  cbv zeta in E, C, R, P, F.
  eexists. eexists. exists new. split; [exact E|].
  split; [reflexivity|]. split; [apply next_id_fresh|]. auto.
Qed.

(** X2.  Neither write path touches the links of another recipe: after
    [create] the links of every recipe but the new one, and after [update]
    (however it ends) the links of every recipe but the instance, are the
    same, through both relations; [update] leaves the favorites and the
    shopping carts as they are. *)
Theorem other_recipes_keep_links
  (unique_together : bool) (instance : Recipe) (validated_data : ValidatedData)
  (db : Database) (rel : Relation) :
  (exists r db',
      create unique_together validated_data db = (Ok r, db')
      /\ links_of_others rel (recipe_id r) db' = links_of_others rel (recipe_id r) db)
  /\ links_of_others rel (recipe_id instance) (exec (update instance validated_data) db)
     = links_of_others rel (recipe_id instance) db
  /\ choices (exec (update instance validated_data) db) = choices db.
Proof.
  split; [|split; [apply update_others|apply update_choices]].
  pose proof (create_run unique_together validated_data db) as E.
  pose proof (create_others unique_together validated_data db rel) as O.
  cbv zeta in E, O. eexists. eexists. split; [exact E|exact O].
Qed.

(** ** What [update] establishes, row by row *)

Lemma update_effect (instance : Recipe) (validated_data : ValidatedData)
  (db : Database) :
  ids_unique db -> pairs_unique db ->
  exists r new,
    let recipe := recipe_id instance in
    let kws := vd_ingredients validated_data in
    let db' := exec (update instance validated_data) db in
    update instance validated_data db = (Ok r, db')
    /\ recipe_id r = recipe
    /\ ingredientinrecipe_rows db' = (ingredientinrecipe_rows db ++ new)%list
    /\ (forall row, In row new -> In (pair_of row) kws)
    /\ (forall kw, In kw kws -> In kw (map pair_of (ingredientinrecipe_rows db')))
    /\ ids_unique db'
    /\ pairs_unique db'
    /\ (forall row, In row (recipe_ingredients recipe db')
                    <-> In row (ingredientinrecipe_rows db') /\ In (pair_of row) kws)
    /\ (forall tag, In tag (related Tags recipe db')
                    <-> In tag (vd_tags validated_data)).
Proof.
  intros U D.
  destruct (update_run instance validated_data db D) as [R E]. cbv zeta in R, E.
  set (recipe := recipe_id instance) in *.
  set (d1 := exec (m2m_clear Tags recipe) db) in *.
  set (d2 := exec (add_tags_to_instance instance (vd_tags validated_data)) d1) in *.
  set (d3 := exec (m2m_clear Ingredients recipe) d2) in *.
  assert (D3 : pairs_unique d3) by (unfold pairs_unique; now rewrite R).
  assert (U3 : ids_unique d3) by (unfold ids_unique; now rewrite R).
  destruct (update_loop_spec recipe (vd_ingredients validated_data) d3 D3)
    as (_ & new & R4 & _ & T4 & P4 & I4 & U4 & Q4 & L4).
  cbv zeta in R4, T4, P4, I4, U4, Q4, L4.
  set (d4 := exec (for_each (vd_ingredients validated_data) _) d3) in *.
  specialize (U4 U3). rewrite R in R4.
  assert (X : exec (update instance validated_data) db
              = snd (Recipe_save instance (popped validated_data) d4))
    by (unfold exec; now rewrite E).
  eexists. exists new.
  cbv zeta. rewrite X, E. unfold Recipe_save, ids_unique, pairs_unique.
  cbn [fst snd recipe_id ingredientinrecipe_rows record set_recipe_rows].
  split; [reflexivity|]. cbn [recipe_id].
  do 6 (split; [solve [auto]|]). split.
  - intros row. rewrite recipe_ingredients_In.
    cbn [ingredientinrecipe_rows through_rows record set_recipe_rows].
    rewrite L4. split.
    + intros [I [L|(_ & x & Ix & Ex & Px)]].
      * unfold d3 in L. apply m2m_clear_links in L. destruct L as [_ N]. congruence.
      * split; [exact I|]. now rewrite <- (NoDup_map_inj iir_id _ _ _ U4 Ix I Ex).
    + intros [I P]. split; [exact I|]. right. split; [reflexivity|]. exists row. auto.
  - intros tag. rewrite related_In. cbn [through_rows record set_recipe_rows].
    rewrite T4.
    assert (T3 : through_rows d3 Tags = through_rows d2 Tags)
      by apply (outside_inv _ _ _ (m2m_clear_outside Ingredients Tags recipe d2 eq_refl)).
    rewrite T3. unfold d2, add_tags_to_instance. fold recipe.
    rewrite add_all_links. unfold d1. rewrite m2m_clear_links.
    split; [intros [[_ N]|[_ I]]; [congruence|exact I]|auto].
Qed.

(** A second upsert of pairs that all have their row appends nothing. *)
Lemma nothing_to_append (kws : list IngredientAmount)
  (rows new : list IngredientInRecipe) :
  NoDup (map pair_of (rows ++ new)) ->
  (forall row, In row new -> In (pair_of row) kws) ->
  (forall kw, In kw kws -> In kw (map pair_of rows)) ->
  new = [].
Proof.
  intros Q P I. destruct new as [|x new]; [reflexivity|]. exfalso.
  rewrite map_app in Q.
  apply (NoDup_app_disjoint _ _ (pair_of x) Q).
  - apply I, P. now left.
  - now left.
Qed.

(** X3.  The uniqueness of the join table's keys and of its
    (ingredient, amount) pairs is kept by [update], and by [create] when the
    pair is declared unique together; [create] keeps the keys unique in any
    case. *)
Theorem write_paths_keep_uniqueness
  (instance : Recipe) (validated_data : ValidatedData) (db : Database) :
  ids_unique db -> pairs_unique db ->
  (forall unique_together,
      ids_unique (exec (create unique_together validated_data) db))
  /\ pairs_unique (exec (create true validated_data) db)
  /\ ids_unique (exec (update instance validated_data) db)
  /\ pairs_unique (exec (update instance validated_data) db).
Proof.
  intros U D. split; [|split].
  - intros unique_together.
    pose proof (create_run unique_together validated_data db) as E.
    destruct (create_tables unique_together validated_data db)
      as (new & _ & _ & _ & _ & U4 & _).
    cbv zeta in E, U4. unfold exec. rewrite E. exact (U4 U).
  - pose proof (create_run true validated_data db) as E.
    destruct (create_tables true validated_data db)
      as (new & _ & _ & _ & _ & _ & Q4 & _).
    cbv zeta in E, Q4. unfold exec. rewrite E. exact (Q4 eq_refl D).
  - destruct (update_effect instance validated_data db U D)
      as (r & new & _ & _ & _ & _ & _ & U' & Q' & _).
    split; assumption.
Qed.

(** X4.  [update] is idempotent on the relations: sent again for the same
    recipe with the same payload it returns, appends no join row, and
    leaves the recipe related to the same join rows and the same tags. *)
Theorem update_twice
  (instance instance' : Recipe) (validated_data : ValidatedData) (db : Database) :
  ids_unique db -> pairs_unique db ->
  recipe_id instance' = recipe_id instance ->
  let db1 := exec (update instance validated_data) db in
  let db2 := exec (update instance' validated_data) db1 in
  (exists r, update instance' validated_data db1 = (Ok r, db2))
  /\ ingredientinrecipe_rows db2 = ingredientinrecipe_rows db1
  /\ (forall row, In row (recipe_ingredients (recipe_id instance) db2)
                  <-> In row (recipe_ingredients (recipe_id instance) db1))
  /\ (forall tag, In tag (related Tags (recipe_id instance) db2)
                  <-> In tag (related Tags (recipe_id instance) db1)).
Proof.
  intros U D Eid db1 db2.
  destruct (update_effect instance validated_data db U D)
    as (r1 & new1 & _ & _ & _ & _ & I1 & U1 & Q1 & L1 & T1).
  cbv zeta in I1, U1, Q1, L1, T1. fold db1 in I1, U1, Q1, L1, T1.
  destruct (update_effect instance' validated_data db1 U1 Q1)
    as (r2 & new2 & E2 & _ & R2 & P2 & _ & _ & Q2 & L2 & T2).
  cbv zeta in E2, R2, P2, Q2, L2, T2. fold db2 in E2, R2, P2, Q2, L2, T2.
  rewrite Eid in L2, T2.
  assert (N : new2 = []).
  { unfold pairs_unique in Q2. rewrite R2 in Q2.
    exact (nothing_to_append _ _ _ Q2 P2 I1). }
  rewrite N, app_nil_r in R2.
  split; [now exists r2|]. split; [exact R2|]. split.
  - intros row. rewrite L2, L1, R2. reflexivity.
  - intros tag. rewrite T2, T1. reflexivity.
Qed.

(** X5.  [update] with the payload a recipe was created with (the pair
    declared unique together) returns, appends no join row, and leaves the
    recipe related to exactly the join rows of the payload's pairs. *)
Theorem update_after_create
  (validated_data : ValidatedData) (db : Database) (r : Recipe) (db1 : Database) :
  ids_unique db -> pairs_unique db ->
  create true validated_data db = (Ok r, db1) ->
  let db2 := exec (update r validated_data) db1 in
  (exists r2, update r validated_data db1 = (Ok r2, db2))
  /\ ingredientinrecipe_rows db2 = ingredientinrecipe_rows db1
  /\ (forall row, In row (recipe_ingredients (recipe_id r) db2)
                  <-> In row (ingredientinrecipe_rows db1)
                      /\ In (pair_of row) (vd_ingredients validated_data)).
Proof.
  intros U D E db2.
  pose proof (create_run true validated_data db) as E'.
  destruct (create_tables true validated_data db)
    as (new & _ & _ & _ & I1 & U1 & Q1 & _).
  cbv zeta in E', I1, U1, Q1.
  match type of E' with _ = (_, ?d) => set (d' := d) in * end.
  assert (Ed : d' = db1) by congruence.
  clearbody d'. subst d'. specialize (U1 U). specialize (Q1 eq_refl D).
  clear E'.
  destruct (update_effect r validated_data db1 U1 Q1)
    as (r2 & new2 & E2 & _ & R2 & P2 & _ & _ & Q2 & L2 & _).
  cbv zeta in E2, R2, P2, Q2, L2. fold db2 in E2, R2, P2, Q2, L2.
  assert (N : new2 = []).
  { unfold pairs_unique in Q2. rewrite R2 in Q2.
    exact (nothing_to_append _ _ _ Q2 P2 I1). }
  rewrite N, app_nil_r in R2.
  split; [now exists r2|]. split; [exact R2|].
  intros row. rewrite L2, R2. reflexivity.
Qed.

(** ** What [create] relates to the new recipe *)

Lemma create_effect
  (unique_together : bool) (validated_data : ValidatedData) (db : Database) :
  exists r new,
    let kws := vd_ingredients validated_data in
    let db' := exec (create unique_together validated_data) db in
    create unique_together validated_data db = (Ok r, db')
    /\ ingredientinrecipe_rows db' = (ingredientinrecipe_rows db ++ new)%list
    /\ (forall row, In row new -> In (pair_of row) kws)
    /\ (forall kw, In kw kws -> In kw (map pair_of (ingredientinrecipe_rows db')))
    /\ (ids_unique db ->
        forall row,
          In row (recipe_ingredients (recipe_id r) db')
          <-> In row (ingredientinrecipe_rows db')
              /\ In (iir_ingredient row) (map ingredient kws)
              /\ In (iir_amount row) (map amount kws)).
Proof.
  pose proof (create_run unique_together validated_data db) as E.
  destruct (create_tables unique_together validated_data db)
    as (new & _ & R & P & I & U4 & _ & L & R2).
  cbv zeta in E, R, P, I, U4, L, R2.
  match type of E with
  | _ = (_, ?d) =>
      assert (X : exec (create unique_together validated_data) db = d)
        by (unfold exec; now rewrite E)
  end.
  eexists. exists new. cbv zeta. rewrite X.
  split; [exact E|]. split; [exact R|]. split; [exact P|]. split; [exact I|].
  intros U row. rewrite recipe_ingredients_In, L, in_map_iff. split.
  - intros (Irow & x & Ex & Ix). apply filter_In in Ix. destruct Ix as [Ix Hx].
    rewrite R2 in Ix.
    pose proof (NoDup_map_inj iir_id _ _ _ (U4 U) Ix Irow Ex) as <-.
    apply andb_true_iff in Hx. rewrite !mem_In in Hx. tauto.
  - intros (Irow & Hi & Ha). split; [exact Irow|]. exists row. split; [reflexivity|].
    apply filter_In. rewrite R2. split; [exact Irow|].
    apply andb_true_iff. now rewrite !mem_In.
Qed.

(** X6.  On a join table with unique keys, the pairs [create] relates to
    the new recipe are exactly the pairs held by the join table, after its
    insertions, whose ingredient is one of the payload's ingredients and
    whose amount is one of the payload's amounts. *)
Theorem create_relates_pairs
  (unique_together : bool) (validated_data : ValidatedData) (db : Database) :
  ids_unique db ->
  exists r db',
    create unique_together validated_data db = (Ok r, db')
    /\ forall kw,
        In kw (map pair_of (recipe_ingredients (recipe_id r) db'))
        <-> In kw (map pair_of (ingredientinrecipe_rows db'))
            /\ In (ingredient kw) (map ingredient (vd_ingredients validated_data))
            /\ In (amount kw) (map amount (vd_ingredients validated_data)).
Proof.
  intros U.
  destruct (create_effect unique_together validated_data db)
    as (r & new & E & _ & _ & _ & L).
  cbv zeta in E, L. specialize (L U).
  exists r. eexists. split; [exact E|].
  intros kw. split.
  - intros J. apply in_map_iff in J. destruct J as (row & <- & I).
    apply L in I. destruct I as (I & Hi & Ha).
    split; [now apply in_map|]. split; [exact Hi|exact Ha].
  - intros (J & Hi & Ha). apply in_map_iff in J. destruct J as (row & <- & I).
    apply in_map. apply L. split; [exact I|]. split; [exact Hi|exact Ha].
Qed.

(** X7.  When no stored join row has an ingredient of the payload together
    with an amount of the payload unless its pair is in the payload (so on
    an empty join table, or for a payload of one pair), [create] relates the
    new recipe to exactly the payload's pairs. *)
Theorem create_exact_when_undisturbed
  (unique_together : bool) (validated_data : ValidatedData) (db : Database) :
  ids_unique db ->
  (forall row,
      In row (ingredientinrecipe_rows db) ->
      In (iir_ingredient row) (map ingredient (vd_ingredients validated_data)) ->
      In (iir_amount row) (map amount (vd_ingredients validated_data)) ->
      In (pair_of row) (vd_ingredients validated_data)) ->
  exists r db',
    create unique_together validated_data db = (Ok r, db')
    /\ forall kw,
        In kw (map pair_of (recipe_ingredients (recipe_id r) db'))
        <-> In kw (vd_ingredients validated_data).
Proof.
  intros U H.
  destruct (create_effect unique_together validated_data db)
    as (r & new & E & R & P & I & L).
  cbv zeta in E, R, P, I, L. specialize (L U).
  exists r. eexists. split; [exact E|].
  intros kw. rewrite in_map_iff. split.
  - intros (row & <- & Irow). apply L in Irow. destruct Irow as (Irow & Hi & Ha).
    rewrite R in Irow. apply in_app_iff in Irow. destruct Irow as [Iold|Inew].
    + now apply H.
    + now apply P.
  - intros Ikw. pose proof (I kw Ikw) as J. apply in_map_iff in J.
    destruct J as (row & <- & J). exists row. split; [reflexivity|].
    apply L. split; [exact J|]. split.
    + change (iir_ingredient row) with (ingredient (pair_of row)). now apply in_map.
    + change (iir_amount row) with (amount (pair_of row)). now apply in_map.
Qed.

(** ** [to_internal_value], the other way round *)

Lemma split_two_inv (sep s a b : string) :
  sep <> EmptyString ->
  Str.split sep s = [a; b] ->
  s = a ++ sep ++ b /\ ~ Str.contains sep a /\ ~ Str.contains sep b.
Proof.
  intros Hsep. unfold Str.split. cbn [Str.split_fuel].
  destruct (Str.partition sep s) as [[a1 b1]|] eqn:P; [|discriminate].
  intros E. injection E as -> E.
  pose proof (partition_sound _ _ _ _ P) as S.
  assert (F : String.length s <> 0).
  { rewrite S, !app_length. destruct sep; [congruence|]. simpl. lia. }
  destruct (String.length s) as [|fuel]; [congruence|].
  cbn [Str.split_fuel] in E.
  destruct (Str.partition sep b1) as [[a2 b2]|] eqn:P2.
  - injection E as _ E. now apply split_fuel_nonempty in E.
  - injection E as ->. split; [exact S|]. split; [|now apply partition_none].
    intros (x & y & Ea).
    assert (L : String.length a <= String.length x).
    { apply (partition_leftmost sep s a b x (y ++ sep ++ b) P).
      rewrite S, Ea, !app_assoc_str. reflexivity. }
    rewrite Ea, !app_length in L. destruct sep; [congruence|]. simpl in L. lia.
Qed.

Section ToInternalValueMore.

Variable b64decode : string -> Result (list byte).
Variable super_to_internal_value : RequestData -> Result Attrs.

(** X8.  Whatever string is sent under ['image'], [to_internal_value]
    either raises [ValueError] or the string is a text, the marker and a
    text, neither text holding the marker, and the result is that of
    decoding the second text and converting the data with the file named
    after the generated identifier and the first text's part after its
    last ['/']: nothing else is ever decoded or converted. *)
Theorem to_internal_value_cases
  (uuid : string) (data : RequestData) (image : string) :
  data_image data = Some (ImageStr image) ->
  to_internal_value b64decode super_to_internal_value uuid data = Raise ValueError
  \/ exists format imgstr ext : string,
       image = format ++ base64_marker ++ imgstr
       /\ ~ Str.contains base64_marker format
       /\ ~ Str.contains base64_marker imgstr
       /\ ~ Str.contains "/" ext
       /\ (format = ext \/ exists p : string, format = p ++ "/" ++ ext)
       /\ to_internal_value b64decode super_to_internal_value uuid data =
          match b64decode imgstr with
          | Ok content =>
              super_to_internal_value
                (set_image data
                   (ImageFile (mkContentFile content (uuid ++ "." ++ ext))))
          | Raise e => Raise e
          end.
Proof.
  intros Himage. unfold to_internal_value. rewrite Himage.
  destruct (Str.split base64_marker image) as [|format [|imgstr [|x rest]]] eqn:S;
    try (left; reflexivity).
  right. destruct (split_two_inv _ _ _ _ base64_marker_nonempty S) as (E & Nf & Ni).
  destruct (last_split "/" format ltac:(discriminate)) as [Hno Hlast].
  exists format, imgstr, (last (Str.split "/" format) EmptyString).
  do 5 (split; [assumption|]).
  destruct (b64decode imgstr); reflexivity.
Qed.

(** X9.  With the marker twice in the ['image'] string, one occurrence
    after the other, the split has three pieces or more and the unpacking
    raises [ValueError], which is not a validation error. *)
Theorem to_internal_value_repeated_marker
  (uuid : string) (data : RequestData) (a b c : string) :
  data_image data
  = Some (ImageStr (a ++ base64_marker ++ b ++ base64_marker ++ c)) ->
  3 <= List.length (Str.split base64_marker
                      (a ++ base64_marker ++ b ++ base64_marker ++ c))
  /\ to_internal_value b64decode super_to_internal_value uuid data = Raise ValueError
  /\ is_validation_error
       (to_internal_value b64decode super_to_internal_value uuid data) = false.
Proof.
  intros Himage. unfold to_internal_value. rewrite Himage.
  destruct (split_twice base64_marker a b c base64_marker_nonempty)
    as (x & y & z & rest & ->).
  split; [simpl; lia|]. split; reflexivity.
Qed.

End ToInternalValueMore.

(** ** [validate], by ingredient only *)

Lemma not_NoDup_twice {A : Type} (x : A) (l1 l2 l3 : list A) :
  ~ NoDup (l1 ++ x :: l2 ++ x :: l3).
Proof.
  intros D. apply NoDup_remove_2 in D. apply D.
  apply in_or_app. right. apply in_or_app. right. now left.
Qed.

(** X10.  Duplicates are told by the ingredient alone: a payload that
    lists an ingredient twice is refused with the ingredients' message,
    whatever the two amounts and whatever the tags. *)
Theorem validate_same_ingredient_twice
  (data : Attrs) (i a1 a2 : nat) (l1 l2 l3 : list IngredientAmount) :
  attrs_ingredients data
  = (l1 ++ mkIngredientAmount i a1 :: l2 ++ mkIngredientAmount i a2 :: l3)%list ->
  validate data = Raise (ValidationError ingredients_error).
Proof.
  intros E. unfold validate, check_for_dublicates. rewrite E.
  assert (H : has_dublicates
                (map ingredient
                   (l1 ++ mkIngredientAmount i a1 :: l2
                       ++ mkIngredientAmount i a2 :: l3)%list) = true).
  { apply has_dublicates_true. rewrite map_app. cbn [map]. rewrite map_app.
    cbn [map ingredient]. apply not_NoDup_twice. }
  now rewrite H.
Qed.

(** ** [update] over a pair that has two rows *)

Lemma filter_app_length {A : Type} (f : A -> bool) (l new : list A) :
  List.length (filter f l) <= List.length (filter f (l ++ new)).
Proof. rewrite filter_app, length_app. lia. Qed.

Lemma get_or_create_cases (kw : IngredientAmount) (db : Database) :
  (2 <= List.length (filter (holds kw) (ingredientinrecipe_rows db)) ->
   outcome (get_or_create kw) db = Raise MultipleObjectsReturned)
  /\ ((exists row created, outcome (get_or_create kw) db = Ok (row, created))
      \/ outcome (get_or_create kw) db = Raise MultipleObjectsReturned)
  /\ exists new,
       ingredientinrecipe_rows (exec (get_or_create kw) db)
       = (ingredientinrecipe_rows db ++ new)%list.
Proof.
  unfold outcome, exec, get_or_create.
  destruct (filter (holds kw) (ingredientinrecipe_rows db)) as [|x [|y rest]].
  - cbn [List.length]. split; [lia|].
    split; [left; eexists; eexists; reflexivity|].
    eexists. reflexivity.
  - cbn [List.length]. split; [lia|].
    split; [left; eexists; eexists; reflexivity|].
    exists []. cbn [snd]. now rewrite app_nil_r.
  - split; [reflexivity|]. split; [now right|].
    exists []. cbn [raise snd]. now rewrite app_nil_r.
Qed.

Section UpdateRaises.

Variable recipe : nat.

Let body (ingredient' : IngredientAmount) : ORM unit :=
  created <- get_or_create ingredient' ;;
  m2m_add Ingredients recipe (iir_id (fst created)).

Lemma update_body_rows (kw : IngredientAmount) (db : Database) :
  (2 <= List.length (filter (holds kw) (ingredientinrecipe_rows db)) ->
   outcome (body kw) db = Raise MultipleObjectsReturned)
  /\ (outcome (body kw) db = Ok tt \/ outcome (body kw) db = Raise MultipleObjectsReturned)
  /\ exists new,
       ingredientinrecipe_rows (exec (body kw) db)
       = (ingredientinrecipe_rows db ++ new)%list.
Proof.
  destruct (get_or_create_cases kw db) as (Hraise & [(row & c & O)|O] & new & R);
    unfold body; rewrite outcome_bind, exec_bind, O.
  - split; [intros L; rewrite (Hraise L) in O; discriminate|].
    split; [left; apply m2m_add_ok|]. exists new. cbn [fst].
    assert (E : ingredientinrecipe_rows
                  (exec (m2m_add Ingredients recipe (iir_id row))
                        (exec (get_or_create kw) db))
                = ingredientinrecipe_rows (exec (get_or_create kw) db))
      by apply (outside_inv Tags _ _
                  (m2m_add_outside Ingredients Tags recipe (iir_id row) _ eq_refl)).
    now rewrite E.
  - split; [reflexivity|]. split; [now right|]. now exists new.
Qed.

Lemma update_loop_raises (kws : list IngredientAmount) (db : Database) :
  (exists kw, In kw kws
              /\ 2 <= List.length (filter (holds kw) (ingredientinrecipe_rows db))) ->
  outcome (for_each kws body) db = Raise MultipleObjectsReturned.
Proof.
  revert db. induction kws as [|kw0 kws IH]; intros db (kw & I & L); [destruct I|].
  cbn [for_each]. rewrite outcome_bind.
  destruct (update_body_rows kw0 db) as (Hraise & [O|O] & new & R); rewrite O;
    [|reflexivity].
  apply IH. destruct I as [->|I].
  - rewrite (Hraise L) in O. discriminate.
  - exists kw. split; [exact I|]. rewrite R.
    pose proof (filter_app_length (holds kw) (ingredientinrecipe_rows db) new). lia.
Qed.

End UpdateRaises.

(** X11.  When the join table holds two rows or more for a pair of the
    payload, [update] raises [MultipleObjectsReturned]: [get_or_create]
    finds several rows for the pair. *)
Theorem update_raises_on_repeated_pair
  (instance : Recipe) (validated_data : ValidatedData) (db : Database)
  (kw : IngredientAmount) :
  In kw (vd_ingredients validated_data) ->
  2 <= List.length (filter (holds kw) (ingredientinrecipe_rows db)) ->
  outcome (update instance validated_data) db = Raise MultipleObjectsReturned.
Proof.
  intros I L. unfold update. cbv zeta.
  set (recipe := recipe_id instance).
  rewrite outcome_bind, m2m_clear_ok. set (d1 := exec (m2m_clear Tags recipe) db).
  rewrite outcome_bind, add_tags_ok.
  set (d2 := exec (add_tags_to_instance instance (vd_tags validated_data)) d1).
  rewrite outcome_bind, m2m_clear_ok.
  set (d3 := exec (m2m_clear Ingredients recipe) d2).
  assert (R : ingredientinrecipe_rows d3 = ingredientinrecipe_rows db).
  { destruct (outside_inv _ _ _ (m2m_clear_outside Tags Ingredients recipe db eq_refl))
      as (_ & E1 & _).
    destruct (outside_inv _ _ _
                (add_all_outside Tags Ingredients recipe (vd_tags validated_data) d1 eq_refl))
      as (_ & E2 & _).
    destruct (outside_inv _ _ _ (m2m_clear_outside Ingredients Tags recipe d2 eq_refl))
      as (_ & E3 & _).
    etransitivity; [exact E3|]. etransitivity; [exact E2|]. exact E1. }
  rewrite outcome_bind.
  rewrite (update_loop_raises recipe (vd_ingredients validated_data) d3);
    [reflexivity|].
  exists kw. split; [exact I|]. now rewrite R.
Qed.

(** ** Samples of the further properties *)

(** [stew] over the database left by [tea] and [soup]. *)
Lemma write_paths_keep_uniqueness_witness :
  (forall unique_together, ids_unique (exec (create unique_together stew) after_soup))
  /\ pairs_unique (exec (create true stew) after_soup)
  /\ ids_unique (exec (update tea_recipe stew) after_soup)
  /\ pairs_unique (exec (update tea_recipe stew) after_soup).
Proof.
  apply (write_paths_keep_uniqueness tea_recipe stew after_soup).
  - unfold ids_unique. vm_compute. nodup.
  - unfold pairs_unique. vm_compute. nodup.
Defined.

(** The recipe of [tea] updated with [stew], twice. *)
Lemma update_twice_witness :
  let db1 := exec (update tea_recipe stew) after_soup in
  let db2 := exec (update tea_recipe stew) db1 in
  (exists r, update tea_recipe stew db1 = (Ok r, db2))
  /\ ingredientinrecipe_rows db2 = ingredientinrecipe_rows db1
  /\ (forall row, In row (recipe_ingredients (recipe_id tea_recipe) db2)
                  <-> In row (recipe_ingredients (recipe_id tea_recipe) db1))
  /\ (forall tag, In tag (related Tags (recipe_id tea_recipe) db2)
                  <-> In tag (related Tags (recipe_id tea_recipe) db1)).
Proof.
  apply (update_twice tea_recipe tea_recipe stew after_soup).
  - unfold ids_unique. vm_compute. nodup.
  - unfold pairs_unique. vm_compute. nodup.
  - reflexivity.
Defined.

(** [stew] is created, then sent as an update of the recipe it made. *)
Lemma update_after_create_witness :
  let db1 := exec (create true stew) after_soup in
  let db2 := exec (update stew_recipe stew) db1 in
  (exists r2, update stew_recipe stew db1 = (Ok r2, db2))
  /\ ingredientinrecipe_rows db2 = ingredientinrecipe_rows db1
  /\ (forall row, In row (recipe_ingredients (recipe_id stew_recipe) db2)
                  <-> In row (ingredientinrecipe_rows db1)
                      /\ In (pair_of row) (vd_ingredients stew)).
Proof.
  apply (update_after_create stew after_soup stew_recipe
           (exec (create true stew) after_soup)).
  - unfold ids_unique. vm_compute. nodup.
  - unfold pairs_unique. vm_compute. nodup.
  - vm_compute. reflexivity.
Defined.

(** [soup] over the row of (1, 2). *)
Lemma create_relates_pairs_witness :
  exists r db',
    create true soup (after_tea true) = (Ok r, db')
    /\ forall kw,
        In kw (map pair_of (recipe_ingredients (recipe_id r) db'))
        <-> In kw (map pair_of (ingredientinrecipe_rows db'))
            /\ In (ingredient kw) (map ingredient (vd_ingredients soup))
            /\ In (amount kw) (map amount (vd_ingredients soup)).
Proof.
  apply (create_relates_pairs true soup (after_tea true)).
  unfold ids_unique. vm_compute. nodup.
Defined.

(** [stew] over the row of (1, 2), a pair of [stew]. *)
Lemma create_exact_when_undisturbed_witness :
  exists r db',
    create true stew (after_tea true) = (Ok r, db')
    /\ forall kw,
        In kw (map pair_of (recipe_ingredients (recipe_id r) db'))
        <-> In kw (vd_ingredients stew).
Proof.
  apply (create_exact_when_undisturbed true stew (after_tea true)).
  - unfold ids_unique. vm_compute. nodup.
  - intros row I _ _. vm_compute in I. destruct I as [<-|[]]. now left.
Defined.

(** A data URI of a PNG image. *)
Lemma to_internal_value_cases_witness :
  to_internal_value sample_b64decode sample_super "0f8c"
    (sample_data "data:image/png;base64,QUJD") = Raise ValueError
  \/ exists format imgstr ext : string,
       "data:image/png;base64,QUJD" = format ++ base64_marker ++ imgstr
       /\ ~ Str.contains base64_marker format
       /\ ~ Str.contains base64_marker imgstr
       /\ ~ Str.contains "/" ext
       /\ (format = ext \/ exists p : string, format = p ++ "/" ++ ext)
       /\ to_internal_value sample_b64decode sample_super "0f8c"
            (sample_data "data:image/png;base64,QUJD") =
          match sample_b64decode imgstr with
          | Ok content =>
              sample_super
                (set_image (sample_data "data:image/png;base64,QUJD")
                   (ImageFile (mkContentFile content ("0f8c" ++ "." ++ ext))))
          | Raise e => Raise e
          end.
Proof.
  apply (to_internal_value_cases sample_b64decode sample_super "0f8c"
           (sample_data "data:image/png;base64,QUJD") "data:image/png;base64,QUJD").
  reflexivity.
Defined.

(** Two data URIs, one after the other. *)
Lemma to_internal_value_repeated_marker_witness :
  3 <= List.length
         (Str.split base64_marker
            ("data:image/png" ++ base64_marker ++ "QUJD" ++ base64_marker ++ "QUJD"))
  /\ to_internal_value sample_b64decode sample_super "0f8c"
       (sample_data "data:image/png;base64,QUJD;base64,QUJD") = Raise ValueError
  /\ is_validation_error
       (to_internal_value sample_b64decode sample_super "0f8c"
          (sample_data "data:image/png;base64,QUJD;base64,QUJD")) = false.
Proof.
  apply (to_internal_value_repeated_marker sample_b64decode sample_super "0f8c"
           (sample_data "data:image/png;base64,QUJD;base64,QUJD")
           "data:image/png" "QUJD" "QUJD").
  reflexivity.
Defined.

(** The ingredient 1 with the amounts 2 and 3. *)
Lemma validate_same_ingredient_twice_witness :
  validate twice_attrs = Raise (ValidationError ingredients_error).
Proof.
  apply (validate_same_ingredient_twice twice_attrs 1 2 3 [] [] []).
  reflexivity.
Defined.

(** [stew], whose pair (1, 2) has two rows. *)
Lemma update_raises_on_repeated_pair_witness :
  outcome (update tea_recipe stew) after_two_teas = Raise MultipleObjectsReturned.
Proof.
  apply (update_raises_on_repeated_pair tea_recipe stew after_two_teas
           (mkIngredientAmount 1 2)).
  - now left.
  - vm_compute. lia.
Defined.
